(** * A shallow embedding of [fs.c], the inode file system of
    DylanGreene/file_system_sim, and the properties its specification states.

    The C code works on a block device through [disk_read], [disk_write] and
    [disk_size]; it views a raw block as a superblock, an array of 128 inodes,
    an array of 1024 block pointers or 4096 bytes (the C union [fs_block]).
    The embedding keeps the bytes: a block is a list of bytes, an [int] is
    four bytes in little-endian two's complement, and the typed views are
    decoders over the same bytes.

    What C leaves undefined is a [Fault] of the embedding: a block id outside
    the device, a copy outside a block buffer, an index outside an array and
    an overflowing signed operation. *)

From Stdlib Require Import ZArith Lia Bool.
From stdpp Require Import base tactics option list.
From coqutil Require Import Byte Word.LittleEndianList.

Local Open Scope Z_scope.

(** ** Constants *)

(** Modelled from the spec: [DISK_BLOCK_SIZE] comes from [disk.h], which is
    not among the sources. The specification fixes it through the layout: one
    block holds 128 inode records of eight [int]s, or 1024 [int] pointers. *)
Definition DISK_BLOCK_SIZE : Z := 4096.

Definition FS_MAGIC : Z := 0xf0f03410.
Definition INODES_PER_BLOCK : Z := 128.
Definition POINTERS_PER_INODE : Z := 5.
Definition POINTERS_PER_BLOCK : Z := 1024.

(** ** Results of a call *)

Inductive fault : Type :=
  | DiskRange (blocknum : Z)          (* block id outside the device *)
  | BufferOverrun (off len : Z)       (* memcpy leaves a block buffer *)
  | UserBufferOverrun (off len : Z)   (* memcpy leaves the caller's data *)
  | ArrayRange (idx : Z)              (* index outside an array or bitmap *)
  | IntOverflow (v : Z)               (* signed arithmetic leaves int *)
  | OutOfFuel.

Inductive outcome (A : Type) : Type :=
  | Ok (a : A)
  | Fault (f : fault).

Arguments Ok {A} a.
Arguments Fault {A} f.

Definition obind {A B} (m : outcome A) (k : A -> outcome B) : outcome B :=
  match m with
  | Ok a => k a
  | Fault f => Fault f
  end.

Notation "x <- m ;; k" := (obind m (fun x => k))
  (at level 100, m at next level, right associativity,
   format "'[v' x  <-  m  ;;  '/' k ']'").

(** ** C integers *)

Definition INT_MIN : Z := - 2 ^ 31.
Definition INT_MAX : Z := 2 ^ 31 - 1.

Definition in_int (z : Z) : bool := (INT_MIN <=? z) && (z <=? INT_MAX).

(** The result of a signed operation: undefined when it leaves [int]. *)
Definition int_chk (z : Z) : outcome Z :=
  if in_int z then Ok z else Fault (IntOverflow z).

(** Reading a 32-bit pattern as a signed [int]. *)
Definition signed32 (u : Z) : Z :=
  if u <? 2 ^ 31 then u else u - 2 ^ 32.

(** [ceil] of the quotient of two ints computed in [double], as in
    [ceil(disk_size() / 10.0)] and [ceil((double)size / DISK_BLOCK_SIZE)]:
    the quotient of an int by 10 or by 4096 is never rounded onto an
    integer it does not equal, so the result is the integer ceiling. *)
Definition ceil_div (a b : Z) : Z := - ((- a) / b).

(** ** Layout codec: the views of the union [fs_block] *)

Abbreviation block := (list byte).

Definition block_size : nat := Z.to_nat DISK_BLOCK_SIZE.

Definition zero_block : block := replicate block_size Byte.x00.

(** [k]-th [int] of a block seen as [int pointers[1024]]. *)
Definition get_int (b : block) (k : nat) : Z :=
  signed32 (le_combine (take 4 (drop (4 * k) b))).

Definition set_int (b : block) (k : nat) (v : Z) : block :=
  take (4 * k) b ++ le_split 4 v ++ drop (4 * k + 4) b.

Record fs_superblock : Type := mk_super {
  magic : Z;
  nblocks : Z;
  ninodeblocks : Z;
  ninodes : Z
}.

Record fs_inode : Type := mk_inode {
  isvalid : Z;
  size : Z;
  direct : list Z;
  indirect : Z
}.

(** [block.super] *)
Definition super_of (b : block) : fs_superblock :=
  {| magic := get_int b 0;
     nblocks := get_int b 1;
     ninodeblocks := get_int b 2;
     ninodes := get_int b 3 |}.

(** The four assignments to [new_super.super]; the rest of the buffer keeps
    what it held. *)
Definition put_super (b : block) (s : fs_superblock) : block :=
  set_int (set_int (set_int (set_int b 0 (magic s)) 1 (nblocks s))
             2 (ninodeblocks s)) 3 (ninodes s).

(** [super.magic == FS_MAGIC]: the int is converted to unsigned. *)
Definition magic_ok (s : fs_superblock) : bool :=
  magic s mod 2 ^ 32 =? FS_MAGIC.

(** [block.inode[slot]]: eight consecutive ints. *)
Definition inode_of (b : block) (slot : nat) : fs_inode :=
  {| isvalid := get_int b (8 * slot);
     size := get_int b (8 * slot + 1);
     direct := map (fun d => get_int b (8 * slot + 2 + d)) (seq 0 5);
     indirect := get_int b (8 * slot + 7) |}.

Definition put_direct (slot : nat) (ds : list Z) (b : block) : block :=
  foldl (fun acc d => set_int acc (8 * slot + 2 + d) (nth d ds 0)) b (seq 0 5).

(** [block.inode[slot] = *inode] *)
Definition put_inode (b : block) (slot : nat) (i : fs_inode) : block :=
  set_int
    (put_direct slot (direct i)
       (set_int (set_int b (8 * slot) (isvalid i)) (8 * slot + 1) (size i)))
    (8 * slot + 7) (indirect i).

(** [block.pointers] *)
Definition pointers_of (b : block) : list Z :=
  map (get_int b) (seq 0 (Z.to_nat POINTERS_PER_BLOCK)).

(** ** Arrays indexed by a C int *)

Definition zlookup {A} (l : list A) (i : Z) : outcome A :=
  if 0 <=? i then
    match l !! Z.to_nat i with
    | Some x => Ok x
    | None => Fault (ArrayRange i)
    end
  else Fault (ArrayRange i).

Definition zupdate {A} (l : list A) (i : Z) (x : A) : outcome (list A) :=
  if (0 <=? i) && (i <? Z.of_nat (length l))
  then Ok (<[Z.to_nat i := x]> l)
  else Fault (ArrayRange i).

(** [memcpy(buf + off, src + soff, n)] into a block buffer. *)
Definition memcpy_in (buf : block) (off : Z) (src : list byte) (soff n : Z)
  : outcome block :=
  if (0 <=? off) && (0 <=? n) && (off + n <=? DISK_BLOCK_SIZE) then
    if (0 <=? soff) && (soff + n <=? Z.of_nat (length src)) then
      Ok (take (Z.to_nat off) buf
          ++ take (Z.to_nat n) (drop (Z.to_nat soff) src)
          ++ drop (Z.to_nat (off + n)) buf)
    else Fault (UserBufferOverrun soff n)
  else Fault (BufferOverrun off n).

(** [memcpy(data + read_counter, buf + off, n)] out of a block buffer: the
    bytes that land in the caller's buffer. *)
Definition memcpy_out (buf : block) (off n : Z) : outcome (list byte) :=
  if (0 <=? off) && (0 <=? n) && (off + n <=? DISK_BLOCK_SIZE)
  then Ok (take (Z.to_nat n) (drop (Z.to_nat off) buf))
  else Fault (BufferOverrun off n).

(** ** The block store *)

(** Modelled from the spec: the block store ([disk.c], not among the
    sources) holds fixed-size blocks, read and written by integer id, and
    reports its block count. Nothing is said of an id outside the device:
    the embedding has no result there. The store also keeps the ids of the
    blocks written, oldest first, so that "no block is written" and the
    order of writes can be stated. *)
Record fs_state : Type := mk_state {
  disk : list block;
  writes : list Z;
  is_mounted : bool;
  free_block_bm : list bool
}.

Definition disk_size (st : fs_state) : Z := Z.of_nat (length (disk st)).

Definition disk_read (blocknum : Z) (st : fs_state) : outcome block :=
  if 0 <=? blocknum then
    match disk st !! Z.to_nat blocknum with
    | Some b => Ok b
    | None => Fault (DiskRange blocknum)
    end
  else Fault (DiskRange blocknum).

Definition disk_write (blocknum : Z) (data : block) (st : fs_state)
  : outcome fs_state :=
  if (0 <=? blocknum) && (blocknum <? disk_size st) then
    Ok {| disk := <[Z.to_nat blocknum := data]> (disk st);
          writes := writes st ++ [blocknum];
          is_mounted := is_mounted st;
          free_block_bm := free_block_bm st |}
  else Fault (DiskRange blocknum).

Definition set_bm (bm : list bool) (st : fs_state) : fs_state :=
  {| disk := disk st; writes := writes st;
     is_mounted := is_mounted st; free_block_bm := bm |}.

Definition set_mounted (m : bool) (st : fs_state) : fs_state :=
  {| disk := disk st; writes := writes st;
     is_mounted := m; free_block_bm := free_block_bm st |}.

(** ** Inode manager *)

Definition inode_load (inumber : Z) (st : fs_state) : outcome fs_inode :=
  let block_number := 1 + Z.quot inumber INODES_PER_BLOCK in
  let block_inode := Z.rem inumber INODES_PER_BLOCK in
  blk <- disk_read block_number st ;;
  if 0 <=? block_inode
  then Ok (inode_of blk (Z.to_nat block_inode))
  else Fault (ArrayRange block_inode).

Definition inode_save (inumber : Z) (inode : fs_inode) (st : fs_state)
  : outcome fs_state :=
  let block_number := 1 + Z.quot inumber INODES_PER_BLOCK in
  let block_inode := Z.rem inumber INODES_PER_BLOCK in
  blk <- disk_read block_number st ;;
  if 0 <=? block_inode
  then disk_write block_number (put_inode blk (Z.to_nat block_inode) inode) st
  else Fault (ArrayRange block_inode).

Definition is_valid_inumber (inumber : Z) (st : fs_state) : outcome bool :=
  super_block <- disk_read 0 st ;;
  if (0 <? inumber) && (inumber <? ninodes (super_of super_block)) then
    inode <- inode_load inumber st ;;
    Ok (negb (isvalid inode =? 0))
  else Ok false.

(** ** Walking the pointers of a file *)

(** The loop that [fs_mount], [fs_delete] and [fs_read] each run over the
    direct pointers and then over the pointers of the indirect block:
<<
    for (p = 0; p < N; p++) {
      if (size <= 0) break;
      if (ptr[p]) { bm[ptr[p]] = v; size -= DISK_BLOCK_SIZE; }
    }
>>
    It returns the size left and the bitmap. *)
Fixpoint walk_pointers (v : bool) (ptrs : list Z) (sz : Z) (bm : list bool)
  : outcome (Z * list bool) :=
  match ptrs with
  | [] => Ok (sz, bm)
  | p :: rest =>
      if sz <=? 0 then Ok (sz, bm)
      else if p =? 0 then walk_pointers v rest sz bm
      else
        bm' <- zupdate bm p v ;;
        walk_pointers v rest (sz - DISK_BLOCK_SIZE) bm'
  end.

(** Direct pointers, then, if size is left and the inode has an indirect
    block, the pointers in it. [mark_ind] tells whether the indirect block
    itself is entered in the bitmap ([fs_mount] and [fs_delete] do,
    [fs_read] does not). *)
Definition walk_inode (v mark_ind : bool) (inode : fs_inode)
    (bm : list bool) (st : fs_state) : outcome (Z * list bool) :=
  r <- walk_pointers v (direct inode) (size inode) bm ;;
  let '(sz, bm1) := r in
  if (0 <? sz) && negb (indirect inode =? 0) then
    bm2 <- (if mark_ind then zupdate bm1 (indirect inode) v else Ok bm1) ;;
    indirect_block <- disk_read (indirect inode) st ;;
    walk_pointers v (pointers_of indirect_block) sz bm2
  else Ok (sz, bm1).

(** ** fs_format *)

Fixpoint format_erase (n : nat) (inode : Z) (st : fs_state)
  : outcome fs_state :=
  match n with
  | O => Ok st
  | S n' =>
      st' <- disk_write (inode + 1) zero_block st ;;
      format_erase n' (inode + 1) st'
  end.

(** [junk] is what the local [new_super] holds before its four fields are
    assigned: C leaves it indeterminate. *)
Definition fs_format (junk : block) (st : fs_state)
  : outcome (Z * fs_state) :=
  if is_mounted st then Ok (0, st) else
  super_block <- disk_read 0 st ;;
  st1 <- (if magic_ok (super_of super_block)
          then format_erase (Z.to_nat (ninodeblocks (super_of super_block)))
                 0 st
          else Ok st) ;;
  let nb := disk_size st1 in
  let nib := ceil_div (disk_size st1) 10 in
  nin <- int_chk (nib * INODES_PER_BLOCK) ;;
  st2 <- disk_write 0
           (put_super junk {| magic := FS_MAGIC; nblocks := nb;
                              ninodeblocks := nib; ninodes := nin |}) st1 ;;
  Ok (1, st2).

(** ** fs_mount *)

Fixpoint mount_inodes (slots : list nat) (blk : block)
    (bm : list bool) (st : fs_state) : outcome (list bool) :=
  match slots with
  | [] => Ok bm
  | slot :: rest =>
      let inode := inode_of blk slot in
      if isvalid inode =? 0 then mount_inodes rest blk bm st
      else
        r <- walk_inode false true inode bm st ;;
        mount_inodes rest blk (snd r) st
  end.

Fixpoint mount_blocks (n : nat) (inode_block : Z)
    (bm : list bool) (st : fs_state) : outcome (list bool) :=
  match n with
  | O => Ok bm
  | S n' =>
      bm1 <- zupdate bm (inode_block + 1) false ;;
      blk <- disk_read (inode_block + 1) st ;;
      bm2 <- mount_inodes (seq 0 (Z.to_nat INODES_PER_BLOCK)) blk bm1 st ;;
      mount_blocks n' (inode_block + 1) bm2 st
  end.

Definition fs_mount (st : fs_state) : outcome (Z * fs_state) :=
  super_block <- disk_read 0 st ;;
  let sb := super_of super_block in
  if negb (magic_ok sb) then Ok (0, st) else
  let bm0 := replicate (Z.to_nat (nblocks sb)) true in
  bm1 <- zupdate bm0 0 false ;;
  bm2 <- mount_blocks (Z.to_nat (ninodeblocks sb)) 0 bm1 st ;;
  Ok (1, set_mounted true (set_bm bm2 st)).

(** ** fs_create *)

(** [for (ptr = 0; ptr < POINTERS_PER_INODE; ptr++) inode.direct[ptr] = 0;] *)
Definition clear_direct (ds : list Z) : list Z :=
  foldl (fun acc ptr => <[ptr := 0]> acc) ds (seq 0 (Z.to_nat POINTERS_PER_INODE)).

Fixpoint create_scan (n : nat) (inumber : Z) (st : fs_state)
  : outcome (Z * fs_state) :=
  match n with
  | O => Ok (0, st)
  | S n' =>
      inode <- inode_load inumber st ;;
      if isvalid inode =? 0 then
        let inode' := {| isvalid := 1; size := 0;
                         direct := clear_direct (direct inode);
                         indirect := indirect inode |} in
        st' <- inode_save inumber inode' st ;;
        Ok (inumber, st')
      else create_scan n' (inumber + 1) st
  end.

Definition fs_create (st : fs_state) : outcome (Z * fs_state) :=
  if negb (is_mounted st) then Ok (0, st) else
  super_block <- disk_read 0 st ;;
  create_scan (Z.to_nat (ninodes (super_of super_block) - 1)) 1 st.

(** ** fs_delete *)

Definition fs_delete (inumber : Z) (st : fs_state) : outcome (Z * fs_state) :=
  if negb (is_mounted st) then Ok (0, st) else
  valid <- is_valid_inumber inumber st ;;
  if negb valid then Ok (0, st) else
  inode <- inode_load inumber st ;;
  r <- walk_inode true true inode (free_block_bm st) st ;;
  let '(sz, bm) := r in
  let inode' := {| isvalid := 0; size := sz;
                   direct := direct inode; indirect := indirect inode |} in
  st' <- inode_save inumber inode' (set_bm bm st) ;;
  Ok (1, st').

(** ** fs_getsize *)

Definition fs_getsize (inumber : Z) (st : fs_state) : outcome Z :=
  if negb (is_mounted st) then Ok (-1) else
  valid <- is_valid_inumber inumber st ;;
  if negb valid then Ok (-1) else
  inode <- inode_load inumber st ;;
  Ok (size inode).

(** ** fs_read *)

(** The intra-block byte offset both [fs_read] and [fs_write] compute; [%]
    of C truncates towards zero. *)
Definition block_offset_of (offset offset_ptr : Z) : Z :=
  Z.rem (offset - offset_ptr * DISK_BLOCK_SIZE) DISK_BLOCK_SIZE.

(** The loop over [b] of [fs_read]; [n] is the number of ids left to visit,
    [out] the bytes copied so far into [data]. *)
Fixpoint read_loop (n : nat) (b : Z) (blocks : list bool) (offset : Z)
    (length sz offset_ptr read_counter n_block : Z) (out : list byte)
    (st : fs_state) : outcome (Z * list byte) :=
  match n with
  | O => Ok (read_counter, out)
  | S n' =>
      if (length <=? 0) || (sz <=? 0) then Ok (read_counter, out) else
      used <- zlookup blocks b ;;
      if negb used then
        read_loop n' (b + 1) blocks offset length sz offset_ptr
          read_counter n_block out st
      else if offset_ptr =? n_block then
        let block_offset := block_offset_of offset offset_ptr in
        blk <- disk_read b st ;;
        if sz <? DISK_BLOCK_SIZE then
          chunk <- memcpy_out blk block_offset sz ;;
          rc <- int_chk (read_counter + sz) ;;
          Ok (rc, out ++ chunk)
        else
          reach <- int_chk (block_offset + length) ;;
          if reach <? DISK_BLOCK_SIZE then
            chunk <- memcpy_out blk block_offset length ;;
            Ok (read_counter + length, out ++ chunk)
          else
            let k := DISK_BLOCK_SIZE - block_offset in
            chunk <- memcpy_out blk block_offset k ;;
            read_loop n' (b + 1) blocks offset (length - k)
              (sz - DISK_BLOCK_SIZE) (offset_ptr + 1) (read_counter + k)
              (n_block + 1) (out ++ chunk) st
      else
        read_loop n' (b + 1) blocks offset length (sz - DISK_BLOCK_SIZE)
          offset_ptr read_counter (n_block + 1) out st
  end.

(** The bitmap [blocks] of [nblocks] entries that [fs_read] fills before it
    copies. *)
Definition read_blocks (nblocks : Z) (inode : fs_inode) (st : fs_state)
  : outcome (list bool) :=
  let blocks := replicate (Z.to_nat nblocks) false in
  r <- walk_inode true false inode blocks st ;;
  Ok (snd r).

(** The result is the returned count and the bytes copied into [data]. *)
Definition fs_read (inumber length offset : Z) (st : fs_state)
  : outcome (Z * list byte) :=
  if negb (is_mounted st) then Ok (0, []) else
  valid <- is_valid_inumber inumber st ;;
  if negb valid then Ok (0, []) else
  if (length <=? 0) || (offset <? 0) then Ok (0, []) else
  inode <- inode_load inumber st ;;
  if size inode <=? offset then Ok (0, []) else
  super_block <- disk_read 0 st ;;
  let sb := super_of super_block in
  blocks <- read_blocks (nblocks sb) inode st ;;
  let offset_ptr := Z.quot offset DISK_BLOCK_SIZE in
  read_loop (Z.to_nat (nblocks sb)) 0 blocks offset
    length (size inode) offset_ptr 0 0 [] st.

(** ** fs_write *)

(** How the overwrite loop of [fs_write] ends: by the [return] inside it,
    or by leaving the [while] with the locals the second phase goes on with. *)
Inductive overwrite_end : Type :=
  | Returned (write_counter : Z)
  | Fell_through (length offset_ptr write_counter : Z) (blk : block).

(** [while (size - offset > 0) { ... }]. [blk] is the local buffer [block],
    which the loop never loads from the disk; [indirect_block] is the local
    of that name. Every further turn has consumed at least one byte of
    [length], which bounds the turns: [fuel] counts them. *)
Fixpoint overwrite_loop (fuel : nat) (inode : fs_inode)
    (indirect_block : block) (data : list byte) (offset : Z)
    (sz length offset_ptr write_counter : Z) (blk : block) (st : fs_state)
  : outcome (overwrite_end * fs_state) :=
  match fuel with
  | O => Fault OutOfFuel
  | S fuel' =>
      left <- int_chk (sz - offset) ;;
      if left <=? 0
      then Ok (Fell_through length offset_ptr write_counter blk, st)
      else
        block_num <-
          (if offset_ptr <? POINTERS_PER_INODE
           then zlookup (direct inode) offset_ptr
           else zlookup (pointers_of indirect_block)
                  (offset_ptr - POINTERS_PER_INODE)) ;;
        let block_offset := block_offset_of offset offset_ptr in
        reach <- int_chk (block_offset + length) ;;
        if reach <? DISK_BLOCK_SIZE then
          blk' <- memcpy_in blk block_offset data write_counter length ;;
          st' <- disk_write block_num blk' st ;;
          Ok (Returned (write_counter + length), st')
        else
          let k := DISK_BLOCK_SIZE - block_offset in
          blk' <- memcpy_in blk block_offset data write_counter k ;;
          st' <- disk_write block_num blk' st ;;
          if length - k <=? 0
          then Ok (Returned (write_counter + k), st')
          else overwrite_loop fuel' inode indirect_block data offset
                 (sz - k) (length - k) (offset_ptr + 1) (write_counter + k)
                 blk' st'
  end.

(** [indirect_block.pointers[idx] = b] *)
Definition set_pointer (indirect_block : block) (idx b : Z) : outcome block :=
  if (0 <=? idx) && (idx <? POINTERS_PER_BLOCK)
  then Ok (set_int indirect_block (Z.to_nat idx) b)
  else Fault (ArrayRange idx).

Definition set_size (sz : Z) (i : fs_inode) : fs_inode :=
  {| isvalid := isvalid i; size := sz;
     direct := direct i; indirect := indirect i |}.

Definition set_direct (ds : list Z) (i : fs_inode) : fs_inode :=
  {| isvalid := isvalid i; size := size i;
     direct := ds; indirect := indirect i |}.

Definition set_indirect (p : Z) (i : fs_inode) : fs_inode :=
  {| isvalid := isvalid i; size := size i;
     direct := direct i; indirect := p |}.

(** [for (b = ninodeblocks; b < nblocks; b++) { ... }]; [n] is the number
    of ids left to visit. *)
Fixpoint extend_loop (n : nat) (b : Z) (inumber : Z) (data : list byte)
    (offset : Z) (inode : fs_inode) (has_indirect : bool)
    (free_direct free_indirect : Z) (length offset_ptr write_counter : Z)
    (blk : block) (st : fs_state) : outcome (Z * fs_state) :=
  match n with
  | O => Ok (write_counter, st)
  | S n' =>
      if length <=? 0 then Ok (write_counter, st) else
      free <- zlookup (free_block_bm st) b ;;
      if negb free then
        extend_loop n' (b + 1) inumber data offset inode has_indirect
          free_direct free_indirect length offset_ptr write_counter blk st
      else
        bm <- zupdate (free_block_bm st) b false ;;
        let st := set_bm bm st in
        if (free_direct =? 0) && negb has_indirect then
          (* the block becomes the indirect block; no data goes into it *)
          let inode := set_indirect b inode in
          st <- inode_save inumber inode st ;;
          extend_loop n' (b + 1) inumber data offset inode true
            free_direct free_indirect length offset_ptr write_counter blk st
        else
          let block_offset := block_offset_of offset offset_ptr in
          reach <- int_chk (block_offset + length) ;;
          let k := if reach <? DISK_BLOCK_SIZE
                   then length else DISK_BLOCK_SIZE - block_offset in
          blk <- memcpy_in blk block_offset data write_counter k ;;
          sz <- int_chk (size inode + k) ;;
          let inode := set_size sz inode in
          let write_counter := write_counter + k in
          let length := length - k in
          (* record the new data block in a pointer *)
          if 0 <? free_direct then
            ds <- zupdate (direct inode)
                    (Z.rem (POINTERS_PER_INODE - free_direct)
                       POINTERS_PER_INODE) b ;;
            let inode := set_direct ds inode in
            st <- inode_save inumber inode st ;;
            st <- disk_write b blk st ;;
            extend_loop n' (b + 1) inumber data offset inode has_indirect
              (free_direct - 1) free_indirect length (offset_ptr + 1)
              write_counter blk st
          else if has_indirect && (0 <? free_indirect) then
            indirect_block <- disk_read (indirect inode) st ;;
            indirect_block <-
              set_pointer indirect_block
                (Z.rem (POINTERS_PER_BLOCK - free_indirect)
                   POINTERS_PER_BLOCK) b ;;
            st <- disk_write (indirect inode) indirect_block st ;;
            st <- inode_save inumber inode st ;;
            st <- disk_write b blk st ;;
            extend_loop n' (b + 1) inumber data offset inode has_indirect
              free_direct (free_indirect - 1) length (offset_ptr + 1)
              write_counter blk st
          else
            st <- inode_save inumber inode st ;;
            st <- disk_write b blk st ;;
            extend_loop n' (b + 1) inumber data offset inode has_indirect
              free_direct free_indirect length (offset_ptr + 1)
              write_counter blk st
  end.

(** [junk_block] and [junk_indirect] are what the locals [block] and
    [indirect_block] hold when the function is entered: C leaves them
    indeterminate, and [fs_write] copies into [block] without loading it. *)
Definition fs_write (junk_block junk_indirect : block)
    (inumber : Z) (data : list byte) (length offset : Z) (st : fs_state)
  : outcome (Z * fs_state) :=
  if negb (is_mounted st) then Ok (0, st) else
  valid <- is_valid_inumber inumber st ;;
  if negb valid then Ok (0, st) else
  if (length <=? 0) || (offset <? 0) then Ok (0, st) else
  inode <- inode_load inumber st ;;
  let pointers_used := ceil_div (size inode) DISK_BLOCK_SIZE in
  indirect_block <-
    (if POINTERS_PER_INODE <? pointers_used
     then disk_read (indirect inode) st else Ok junk_indirect) ;;
  let has_indirect := POINTERS_PER_INODE <? pointers_used in
  let offset_ptr := Z.quot offset DISK_BLOCK_SIZE in
  r <- overwrite_loop (Z.to_nat length) inode indirect_block data offset
         (size inode) length offset_ptr 0 junk_block st ;;
  match r with
  | (Returned write_counter, st) => Ok (write_counter, st)
  | (Fell_through length offset_ptr write_counter blk, st) =>
      let free_direct :=
        if pointers_used <=? POINTERS_PER_INODE
        then POINTERS_PER_INODE - pointers_used else 0 in
      let free_indirect :=
        if pointers_used <=? POINTERS_PER_INODE
        then POINTERS_PER_BLOCK
        else POINTERS_PER_BLOCK - (pointers_used - POINTERS_PER_INODE) in
      super_block <- disk_read 0 st ;;
      let sb := super_of super_block in
      extend_loop (Z.to_nat (nblocks sb - ninodeblocks sb)) (ninodeblocks sb)
        inumber data offset inode has_indirect free_direct free_indirect
        length offset_ptr write_counter blk st
  end.

(** ** Well-formed devices *)

Definition block_wide (b : block) : Prop :=
  Z.of_nat (length b) = DISK_BLOCK_SIZE.

(** A device the block store can offer: every block is one block wide and
    the block count is an [int], as [disk_size] returns it. *)
Definition wf_disk (d : list block) : Prop :=
  Forall block_wide d /\ Z.of_nat (length d) <= INT_MAX.

Definition block_wideb (b : block) : bool :=
  Z.of_nat (length b) =? DISK_BLOCK_SIZE.

Definition wf_diskb (d : list block) : bool :=
  forallb block_wideb d && (Z.of_nat (length d) <=? INT_MAX).

(** The value an [int] field holds once it went through four bytes. *)
Definition stored (v : Z) : Z := signed32 (v mod 2 ^ 32).

(** The fields of a record are C ints and there are five direct pointers. *)
Definition int_inode (ino : fs_inode) : Prop :=
  in_int (isvalid ino) = true /\ in_int (size ino) = true /\
  length (direct ino) = 5%nat /\
  forallb in_int (direct ino) = true /\ in_int (indirect ino) = true.

(** A call that did not stop for want of fuel: it returned, or it hit one
    of the faults of the C code. *)
Definition has_run {A} (r : outcome A) : Prop := r <> Fault OutOfFuel.

(** ** The logical block sequence, in the specification's words *)

(** The non-zero pointers of [ptrs] in slot order, stopping once the
    cumulative [DISK_BLOCK_SIZE] count reaches the size left; the size
    left afterwards comes with them. *)
Fixpoint pointers_in_slot_order (ptrs : list Z) (sz : Z) : list Z * Z :=
  match ptrs with
  | [] => ([], sz)
  | p :: rest =>
      if sz <=? 0 then ([], sz)
      else if p =? 0 then pointers_in_slot_order rest sz
      else
        let r := pointers_in_slot_order rest (sz - DISK_BLOCK_SIZE) in
        (p :: fst r, snd r)
  end.

(** The enumeration as the specification words it, to set against what
    [fs_read] does: direct pointers first, then the pointers of the
    indirect block. *)
Definition logical_blocks (inode : fs_inode) (st : fs_state)
  : outcome (list Z) :=
  let d := pointers_in_slot_order (direct inode) (size inode) in
  if (0 <? snd d) && negb (indirect inode =? 0) then
    indirect_block <- disk_read (indirect inode) st ;;
    Ok (fst d ++ fst (pointers_in_slot_order (pointers_of indirect_block)
                        (snd d)))
  else Ok (fst d).

(** Whether the walks go on into the indirect block: size is left after
    the direct pointers and the inode has an indirect pointer. *)
Definition enters_indirect (inode : fs_inode) : bool :=
  (0 <? snd (pointers_in_slot_order (direct inode) (size inode)))
  && negb (indirect inode =? 0).

(** Block [i] belongs to the file of [inode]: it is one of its data
    blocks, or its indirect block when the walks go into it. *)
Definition referenced_by (inode : fs_inode) (st : fs_state) (i : Z) : Prop :=
  exists L,
    logical_blocks inode st = Ok L /\
    (i ∈ L \/ (enters_indirect inode = true /\ i = indirect inode)).

(** The ids [fs_read] visits: those set in its bitmap, in the order of its
    loop over [b]. *)
Definition visited_blocks (blocks : list bool) : list Z :=
  filter (fun b => blocks !! Z.to_nat b = Some true)
    (seqZ 0 (Z.of_nat (length blocks))).

(** ** An append of at most one block to an empty file *)

(** The inode [fs_write] saves: the size is the length written and the first
    direct pointer is the block claimed. *)
Definition one_block_inode (ino : fs_inode) (b len : Z) : fs_inode :=
  {| isvalid := isvalid ino; size := len;
     direct := <[0%nat := b]> (direct ino); indirect := indirect ino |}.

(** The buffer [fs_write] writes to that block: the data, then what the
    uninitialised local held beyond it. *)
Definition one_block_data (junk_block : block) (data : list byte) : block :=
  data ++ drop (length data) junk_block.

(** ** Volumes reached through the operations *)

Definition blank_device (n : nat) : fs_state :=
  {| disk := replicate n zero_block; writes := [];
     is_mounted := false; free_block_bm := [] |}.

(** The return value of a call, and the state it leaves (the state it
    started from if the call has no result). *)
Definition result {A} (r : outcome (A * fs_state)) : outcome A :=
  x <- r ;; Ok (fst x).

Definition after {A} (call : fs_state -> outcome (A * fs_state))
    (st : fs_state) : fs_state :=
  match call st with
  | Ok (_, st') => st'
  | Fault _ => st
  end.

Definition bytes (c : byte) (n : Z) : list byte := replicate (Z.to_nat n) c.

(** Byte [i] of a block of the device. *)
Definition disk_byte (blocknum : Z) (i : nat) (st : fs_state)
  : outcome (option byte) :=
  blk <- disk_read blocknum st ;; Ok (blk !! i).

Definition chr_A : byte := Byte.x41.
Definition chr_B : byte := Byte.x42.
Definition chr_C : byte := Byte.x43.
Definition chr_X : byte := Byte.x58.

(** [fs_write] entered with zeroed locals. *)
Definition write0 := fs_write zero_block zero_block.

(** Ten blocks, formatted and mounted: one inode block, data blocks 2..9. *)
Definition vol_mounted : fs_state :=
  after fs_mount (after (fs_format zero_block) (blank_device 10)).

(** One empty file, inumber 1. *)
Definition vol_one_file : fs_state := after fs_create vol_mounted.

(** Two empty files, inumbers 1 and 2. *)
Definition vol_two_files : fs_state := after fs_create vol_one_file.

(** File 1 holds 100 bytes ['A'] in block 2. *)
Definition vol_small_file : fs_state :=
  after (write0 1 (bytes chr_A 100) 100 0) vol_one_file.

(** File 1 holds 8192 bytes ['A'] in blocks 2 and 3. *)
Definition vol_two_blocks : fs_state :=
  after (write0 1 (bytes chr_A 8192) 8192 0) vol_one_file.

(** File 1 holds six blocks' worth: direct blocks 2..6, indirect block 7,
    data block 8. *)
Definition vol_six_blocks : fs_state :=
  after (write0 1 (bytes chr_A 24576) 24576 0) vol_one_file.

(** File 1 wrote ['A'] to block 2, file 2 wrote ['X'] to block 3, file 1
    wrote ['B'] to block 4, file 2 was deleted: block 3 is free again. *)
Definition vol_gap : fs_state :=
  after (fs_delete 2)
    (after (write0 1 (bytes chr_B 4096) 4096 4096)
       (after (write0 2 (bytes chr_X 4096) 4096 0)
          (after (write0 1 (bytes chr_A 4096) 4096 0) vol_two_files))).

(** File 1 then wrote ['C'] at offset 8192, which landed in block 3. *)
Definition vol_out_of_order : fs_state :=
  after (write0 1 (bytes chr_C 4096) 4096 8192) vol_gap.

(** File 2 holds blocks 2 and 3; file 1 then asked for six blocks and got
    the five direct ones, 4..8, and block 9 as indirect block, with no
    block left for the data. *)
Definition vol_full : fs_state :=
  after (write0 1 (bytes chr_A 24576) 24576 0)
    (after (write0 2 (bytes chr_X 8192) 8192 0) vol_two_files).

(** File 2 deleted: blocks 2 and 3 are free again. *)
Definition vol_room_again : fs_state := after (fs_delete 2) vol_full.

(** * Properties *)

(** Case analysis on the integer comparisons of the goal. *)
Ltac dec_bools :=
  repeat match goal with
    | |- context [?a <? ?b] => destruct (Z.ltb_spec a b)
    | |- context [?a <=? ?b] => destruct (Z.leb_spec a b)
    | |- context [?a =? ?b] => destruct (Z.eqb_spec a b)
    end;
  simpl.


(** ** The layout codec *)

Section Codec.

Implicit Types (b : block) (k j : nat) (v : Z).

Lemma signed32_wrap v :
  INT_MIN <= v <= INT_MAX -> signed32 (v mod 2 ^ 32) = v.
Proof.
  unfold INT_MIN, INT_MAX, signed32. intros Hv.
  destruct (Z.ltb_spec (v mod 2 ^ 32) (2 ^ 31)) as [Hlt | Hge].
  - destruct (Z.neg_nonneg_cases v) as [Hneg | Hpos].
    + replace v with ((v + 2 ^ 32) - 1 * 2 ^ 32) in Hlt by ring.
      rewrite Zminus_mod, Z_mod_mult, Z.sub_0_r, Z.mod_mod in Hlt by lia.
      rewrite Z.mod_small in Hlt; lia.
    + apply Z.mod_small. lia.
  - destruct (Z.neg_nonneg_cases v) as [Hneg | Hpos].
    + replace v with ((v + 2 ^ 32) - 1 * 2 ^ 32) at 1 by ring.
      rewrite Zminus_mod, Z_mod_mult, Z.sub_0_r, Z.mod_mod by lia.
      rewrite Z.mod_small; lia.
    + rewrite Z.mod_small in Hge; lia.
Qed.

Lemma signed32_range u :
  0 <= u < 2 ^ 32 -> INT_MIN <= signed32 u <= INT_MAX.
Proof.
  unfold INT_MIN, INT_MAX, signed32. intros Hu.
  destruct (Z.ltb_spec u (2 ^ 31)); lia.
Qed.

Lemma get_int_range b k : INT_MIN <= get_int b k <= INT_MAX.
Proof.
  unfold get_int. apply signed32_range.
  pose proof (le_combine_bound (take 4 (drop (4 * k) b))) as Hb.
  assert (Hlen : (length (take 4 (drop (4 * k) b)) <= 4)%nat)
    by (rewrite length_take; lia).
  split; [lia |].
  eapply Z.lt_le_trans; [apply Hb |].
  apply Z.pow_le_mono_r; lia.
Qed.

Lemma length_set_int b k v :
  (4 * k + 4 <= length b)%nat -> length (set_int b k v) = length b.
Proof.
  intros Hk. unfold set_int.
  rewrite !length_app, length_take, length_drop, length_le_split. lia.
Qed.

Lemma lookup_set_int_out b k v (i : nat) :
  (4 * k + 4 <= length b)%nat ->
  (i < 4 * k \/ 4 * k + 4 <= i)%nat ->
  set_int b k v !! i = b !! i.
Proof.
  intros Hk Hi. unfold set_int.
  assert (Ht : length (take (4 * k) b) = (4 * k)%nat)
    by (rewrite length_take; lia).
  destruct Hi as [Hi | Hi].
  - rewrite lookup_app_l by lia.
    rewrite lookup_take. destruct (decide (i < 4 * k)%nat); [done | lia].
  - rewrite lookup_app_r by lia.
    rewrite lookup_app_r by (rewrite length_le_split; lia).
    rewrite lookup_drop, Ht, length_le_split. f_equal. lia.
Qed.

Lemma bytes_set_int_eq b k v :
  (4 * k + 4 <= length b)%nat ->
  take 4 (drop (4 * k) (set_int b k v)) = le_split 4 v.
Proof.
  intros Hk. unfold set_int.
  rewrite drop_app_length' by (rewrite length_take; lia).
  apply take_app_length'. by rewrite length_le_split.
Qed.

Lemma bytes_set_int_ne b k j v :
  (4 * k + 4 <= length b)%nat -> j <> k ->
  take 4 (drop (4 * j) (set_int b k v)) = take 4 (drop (4 * j) b).
Proof.
  intros Hk Hjk. apply list_eq. intros i.
  rewrite !lookup_take.
  destruct (decide (i < 4)%nat); [| done].
  rewrite !lookup_drop. apply lookup_set_int_out; [done | lia].
Qed.

Lemma get_set_int_eq b k v :
  (4 * k + 4 <= length b)%nat ->
  get_int (set_int b k v) k = signed32 (v mod 2 ^ 32).
Proof.
  intros Hk. unfold get_int.
  rewrite bytes_set_int_eq by done. by rewrite le_combine_split.
Qed.

Lemma get_set_int_ne b k j v :
  (4 * k + 4 <= length b)%nat -> j <> k ->
  get_int (set_int b k v) j = get_int b j.
Proof.
  intros Hk Hjk. unfold get_int. by rewrite bytes_set_int_ne.
Qed.

Lemma get_set_int_same b k v :
  (4 * k + 4 <= length b)%nat -> INT_MIN <= v <= INT_MAX ->
  get_int (set_int b k v) k = v.
Proof.
  intros Hk Hv. rewrite get_set_int_eq by done. by apply signed32_wrap.
Qed.

End Codec.

(** Lengths of buffers under [set_int]. *)
Ltac len_solve :=
  first [ lia | rewrite length_set_int; len_solve ].


(** ** The block store *)

Section Store.

Implicit Types (st : fs_state) (blk : block) (n i : Z).

Lemma disk_read_Ok n st blk :
  disk_read n st = Ok blk <-> 0 <= n /\ disk st !! Z.to_nat n = Some blk.
Proof.
  unfold disk_read. destruct (Z.leb_spec 0 n) as [Hn | Hn].
  - destruct (disk st !! Z.to_nat n) as [b' |] eqn:Hb; split.
    + intros [= ->]. done.
    + intros [_ [= ->]]. done.
    + discriminate.
    + intros [_ [=]].
  - split; [discriminate | lia].
Qed.

Lemma disk_read_wf n st blk :
  wf_disk (disk st) -> disk_read n st = Ok blk -> block_wide blk.
Proof.
  intros [Hwf _] [_ Hb]%disk_read_Ok.
  by eapply (Forall_lookup_1 _ _ _ _ Hwf) in Hb.
Qed.

Lemma disk_write_Ok n blk st st' :
  disk_write n blk st = Ok st' <->
  0 <= n < disk_size st /\
  st' = {| disk := <[Z.to_nat n := blk]> (disk st);
           writes := writes st ++ [n];
           is_mounted := is_mounted st;
           free_block_bm := free_block_bm st |}.
Proof.
  unfold disk_write.
  destruct (Z.leb_spec 0 n), (Z.ltb_spec n (disk_size st)); simpl;
    split; try discriminate; try lia.
  - intros [= <-]. done.
  - intros [_ ->]. done.
Qed.

Lemma disk_write_succeeds n blk st :
  0 <= n < disk_size st -> exists st', disk_write n blk st = Ok st'.
Proof.
  intros Hn. eexists. apply disk_write_Ok. split; [done | reflexivity].
Qed.

Lemma disk_write_wf n blk st st' :
  wf_disk (disk st) -> block_wide blk ->
  disk_write n blk st = Ok st' -> wf_disk (disk st').
Proof.
  intros [Hwf Hsz] Hblk [_ ->]%disk_write_Ok. simpl. split.
  - by apply Forall_insert.
  - by rewrite length_insert.
Qed.

Lemma disk_write_size n blk st st' :
  disk_write n blk st = Ok st' -> disk_size st' = disk_size st.
Proof.
  intros [_ ->]%disk_write_Ok. unfold disk_size. simpl.
  by rewrite length_insert.
Qed.

Lemma disk_read_write_eq n blk st st' :
  disk_write n blk st = Ok st' -> disk_read n st' = Ok blk.
Proof.
  intros [Hn ->]%disk_write_Ok. apply disk_read_Ok. simpl.
  split; [lia |]. apply list_lookup_insert_eq. unfold disk_size in Hn. lia.
Qed.

Lemma disk_read_write_ne n m blk st st' :
  n <> m -> 0 <= m ->
  disk_write n blk st = Ok st' -> disk_read m st' = disk_read m st.
Proof.
  intros Hnm Hm [Hn ->]%disk_write_Ok. unfold disk_read. simpl.
  rewrite list_lookup_insert_ne; [done | lia].
Qed.

End Store.

Lemma wf_diskb_true d : wf_diskb d = true -> wf_disk d.
Proof.
  unfold wf_diskb, wf_disk. intros [Hall Hlen%Z.leb_le]%andb_prop.
  split; [| done].
  apply Forall_forall. intros b Hb%list_elem_of_In.
  rewrite forallb_forall in Hall. by apply Z.eqb_eq, Hall.
Qed.

Lemma zero_block_wide : block_wide zero_block.
Proof.
  unfold block_wide, zero_block, block_size.
  rewrite length_replicate. unfold DISK_BLOCK_SIZE. lia.
Qed.

(** ** fs_format *)

Section Format.

Implicit Types (st : fs_state) (junk : block).

Lemma super_of_put_super junk s :
  block_wide junk ->
  super_of (put_super junk s) =
  {| magic := signed32 (magic s mod 2 ^ 32);
     nblocks := signed32 (nblocks s mod 2 ^ 32);
     ninodeblocks := signed32 (ninodeblocks s mod 2 ^ 32);
     ninodes := signed32 (ninodes s mod 2 ^ 32) |}.
Proof.
  unfold block_wide, DISK_BLOCK_SIZE. intros Hj.
  unfold super_of, put_super.
  repeat first
    [ rewrite get_set_int_eq by len_solve
    | rewrite get_set_int_ne by len_solve ].
  reflexivity.
Qed.

Lemma put_super_wide junk s : block_wide junk -> block_wide (put_super junk s).
Proof.
  unfold block_wide, DISK_BLOCK_SIZE, put_super. intros Hj.
  len_solve.
Qed.

(** The erase loop writes a zero block to each of the [n] ids after
    [i], in ascending order, and touches nothing else. *)
Lemma format_erase_Ok n : forall i st st',
  0 <= i ->
  format_erase n i st = Ok st' ->
  writes st' = writes st ++ seqZ (i + 1) (Z.of_nat n) /\
  is_mounted st' = is_mounted st /\
  free_block_bm st' = free_block_bm st /\
  disk_size st' = disk_size st /\
  (wf_disk (disk st) -> wf_disk (disk st')) /\
  forall j, 0 <= j ->
    disk_read j st' =
    if (i <? j) && (j <=? i + Z.of_nat n) then Ok zero_block
    else disk_read j st.
Proof.
  induction n as [| n IH]; intros i st st' Hi; cbn [format_erase].
  - intros [= <-]. rewrite app_nil_r. split_and!; try done.
    intros j Hj. dec_bools; (done || lia).
  - destruct (disk_write (i + 1) zero_block st) as [st1 | f] eqn:Hw;
      cbn [obind]; [| discriminate].
    intros Hrec. apply IH in Hrec as (Hlog & Hm & Hbm & Hsz & Hwf & Hrd); [| lia].
    pose proof Hw as [Hrange Hst1]%disk_write_Ok.
    split_and!.
    + rewrite Hlog, Hst1. simpl. rewrite <- app_assoc. f_equal.
      rewrite (seqZ_cons (i + 1)) by lia. simpl. do 2 f_equal; lia.
    + rewrite Hm, Hst1. done.
    + rewrite Hbm, Hst1. done.
    + rewrite Hsz. by eapply disk_write_size.
    + intros Hd. apply Hwf.
      eapply disk_write_wf; [done | apply zero_block_wide | done].
    + intros j Hj. rewrite Hrd by done.
      destruct (Z.eq_dec j (i + 1)) as [-> | Hne].
      * rewrite (disk_read_write_eq _ _ _ _ Hw). dec_bools; (done || lia).
      * rewrite (disk_read_write_ne _ _ _ _ _ (not_eq_sym Hne) Hj Hw).
        dec_bools; (done || lia).
Qed.

Lemma format_erase_succeeds n : forall i st,
  0 <= i -> (n = 0%nat \/ i + Z.of_nat n < disk_size st) ->
  exists st', format_erase n i st = Ok st'.
Proof.
  induction n as [| n IH]; intros i st Hi Hn; cbn [format_erase].
  - by eexists.
  - destruct Hn as [? | Hn]; [done |].
    destruct (disk_write_succeeds (i + 1) zero_block st) as [st1 Hw]; [lia |].
    rewrite Hw. cbn [obind]. apply IH; [lia |].
    destruct n; [by left | right].
    rewrite (disk_write_size _ _ _ _ Hw). lia.
Qed.

End Format.

(** [ceil_div a b] is the ceiling of [a / b]: the least [q] with
    [a <= q * b]. *)
Lemma ceil_div_spec a b :
  0 < b -> (ceil_div a b - 1) * b < a <= ceil_div a b * b.
Proof.
  unfold ceil_div. intros Hb.
  pose proof (Z.div_mod (- a) b ltac:(lia)) as Hd.
  pose proof (Z.mod_pos_bound (- a) b Hb) as Hm.
  nia.
Qed.

Lemma ceil_div_10_range n :
  0 <= n <= INT_MAX -> 0 <= ceil_div n 10 <= INT_MAX.
Proof.
  unfold ceil_div, INT_MAX. intros Hn.
  pose proof (Z.div_mod (- n) 10 ltac:(lia)) as Hd.
  pose proof (Z.mod_pos_bound (- n) 10 ltac:(lia)) as Hm.
  lia.
Qed.

Lemma seqZ_to_nat m n : seqZ m (Z.of_nat (Z.to_nat n)) = seqZ m n.
Proof. unfold seqZ. by rewrite Nat2Z.id. Qed.

(** C6. [fs_format] on a mounted volume returns 0 and does nothing. On an
    unmounted device, whenever it returns it returns 1 and block 0 then
    holds a superblock with the magic set, [nblocks] the device block
    count, [ninodeblocks = ceil(nblocks / 10)] and
    [ninodes = ninodeblocks * 128]; if block 0 carried the magic, the
    blocks [1 .. ninodeblocks] of the old superblock were written with
    zeros, in ascending order and before block 0, and every other block is
    as it was; if the magic was absent, block 0 is the only block written.
    It does return on every unmounted device that has a block 0, whose
    old inode table (when the magic is there) lies on the device and whose
    inode count fits an [int]. *)
Theorem fs_format_spec junk st :
  wf_disk (disk st) -> block_wide junk ->
  (is_mounted st = true -> fs_format junk st = Ok (0, st)) /\
  (is_mounted st = false ->
   forall r st', fs_format junk st = Ok (r, st') ->
   exists old new,
     disk_read 0 st = Ok old /\ disk_read 0 st' = Ok new /\
     r = 1 /\
     magic_ok (super_of new) = true /\
     nblocks (super_of new) = disk_size st /\
     ninodeblocks (super_of new) = ceil_div (disk_size st) 10 /\
     ninodes (super_of new) = ninodeblocks (super_of new) * INODES_PER_BLOCK /\
     is_mounted st' = false /\
     free_block_bm st' = free_block_bm st /\
     (magic_ok (super_of old) = true ->
      writes st' = writes st ++ seqZ 1 (ninodeblocks (super_of old)) ++ [0] /\
      forall j, 1 <= j ->
        disk_read j st' =
        if j <=? ninodeblocks (super_of old) then Ok zero_block
        else disk_read j st) /\
     (magic_ok (super_of old) = false ->
      writes st' = writes st ++ [0] /\
      forall j, 1 <= j -> disk_read j st' = disk_read j st)) /\
  (is_mounted st = false ->
   0 < disk_size st ->
   ceil_div (disk_size st) 10 * INODES_PER_BLOCK <= INT_MAX ->
   (forall old, disk_read 0 st = Ok old -> magic_ok (super_of old) = true ->
      ninodeblocks (super_of old) < disk_size st) ->
   exists st', fs_format junk st = Ok (1, st')).
Proof.
  intros Hwf Hjunk. split_and!.
  - intros Hm. unfold fs_format. by rewrite Hm.
  - intros Hm r st'. unfold fs_format. rewrite Hm.
    destruct (disk_read 0 st) as [old | f] eqn:Hold; cbn [obind]; [| done].
    set (erased := magic_ok (super_of old)).
    destruct (if erased
              then format_erase (Z.to_nat (ninodeblocks (super_of old))) 0 st
              else Ok st) as [st1 | f] eqn:Herase; cbn [obind]; [| done].
    (* what the erase step, when there is one, has done *)
    assert (Hst1 :
      writes st1 = writes st ++
                   (if erased then seqZ 1 (ninodeblocks (super_of old)) else []) /\
      is_mounted st1 = is_mounted st /\
      free_block_bm st1 = free_block_bm st /\
      disk_size st1 = disk_size st /\
      wf_disk (disk st1) /\
      forall j, 1 <= j ->
        disk_read j st1 =
        if erased && (j <=? ninodeblocks (super_of old)) then Ok zero_block
        else disk_read j st).
    { destruct erased.
      - apply format_erase_Ok in Herase
          as (Hlog & Hmm & Hbm & Hsz & Hwf1 & Hrd); [| lia].
        rewrite seqZ_to_nat in Hlog. split_and!; auto.
        intros j Hj. rewrite Hrd by lia. cbn [andb].
        dec_bools; (done || lia).
      - injection Herase as <-. rewrite app_nil_r. split_and!; auto. }
    destruct Hst1 as (Hlog & Hmm & Hbm & Hsz & Hwf1 & Hrd).
    rewrite Hsz.
    assert (Hn : 0 <= disk_size st <= INT_MAX)
      by (destruct Hwf; unfold disk_size; lia).
    pose proof (ceil_div_10_range _ Hn) as Hnib.
    unfold int_chk.
    destruct (in_int (ceil_div (disk_size st) 10 * INODES_PER_BLOCK))
      eqn:Hnin; cbn [obind]; [| done].
    destruct (disk_write 0 _ st1) as [st2 | f] eqn:Hw; cbn [obind]; [| done].
    intros [= <- <-].
    pose proof Hw as [_ Hst2]%disk_write_Ok.
    eexists old, _. split; [done |].
    split; [by eapply disk_read_write_eq |].
    rewrite super_of_put_super by done. cbn [magic nblocks ninodeblocks ninodes].
    unfold in_int in Hnin. apply andb_prop in Hnin as [Hlo%Z.leb_le Hhi%Z.leb_le].
    rewrite (signed32_wrap (disk_size st)) by (unfold INT_MIN in *; lia).
    rewrite (signed32_wrap (ceil_div (disk_size st) 10))
      by (unfold INT_MIN in *; lia).
    rewrite (signed32_wrap (ceil_div (disk_size st) 10 * INODES_PER_BLOCK))
      by (unfold INT_MIN in *; lia).
    split_and!; try done.
    + rewrite Hst2. cbn [is_mounted]. congruence.
    + rewrite Hst2. cbn [free_block_bm]. congruence.
    + intros He. fold erased in He. rewrite He in *. split.
      * rewrite Hst2. cbn [writes]. by rewrite Hlog, <- app_assoc.
      * intros j Hj.
        rewrite (disk_read_write_ne 0 j _ _ _ ltac:(lia) ltac:(lia) Hw).
        by rewrite Hrd.
    + intros He. fold erased in He. rewrite He in *. split.
      * rewrite Hst2. cbn [writes]. by rewrite Hlog, app_nil_r.
      * intros j Hj.
        rewrite (disk_read_write_ne 0 j _ _ _ ltac:(lia) ltac:(lia) Hw).
        by rewrite Hrd.
  - intros Hm Hsz Hnin Hold. unfold fs_format. rewrite Hm.
    destruct (disk_read 0 st) as [old | f] eqn:Hrd; cbn [obind].
    2: { unfold disk_read, disk_size in *. cbn in Hrd.
         destruct (disk st); [simpl in Hsz; lia | done]. }
    assert (Hn : 0 <= disk_size st <= INT_MAX)
      by (destruct Hwf; unfold disk_size; lia).
    pose proof (ceil_div_10_range _ Hn) as Hnib.
    assert (Herase : exists st1,
      (if magic_ok (super_of old)
       then format_erase (Z.to_nat (ninodeblocks (super_of old))) 0 st
       else Ok st) = Ok st1 /\ disk_size st1 = disk_size st).
    { destruct (magic_ok (super_of old)) eqn:He; [| by eexists].
      specialize (Hold old eq_refl He).
      destruct (format_erase_succeeds
                  (Z.to_nat (ninodeblocks (super_of old))) 0 st)
        as [st1 Hst1]; [lia | |].
      - destruct (Z.to_nat (ninodeblocks (super_of old))) eqn:Hk;
          [by left | right; lia].
      - exists st1. split; [done |].
        by apply format_erase_Ok in Hst1 as (_ & _ & _ & ? & _); [| lia]. }
    destruct Herase as (st1 & -> & Hsz1). cbn [obind]. rewrite Hsz1.
    unfold int_chk, in_int.
    assert (Hin : (INT_MIN <=? ceil_div (disk_size st) 10 * INODES_PER_BLOCK)
                  && (ceil_div (disk_size st) 10 * INODES_PER_BLOCK <=? INT_MAX)
                  = true).
    { apply andb_true_intro. split; [apply Z.leb_le | apply Z.leb_le];
        unfold INT_MIN, INODES_PER_BLOCK in *; lia. }
    rewrite Hin. cbn [obind].
    destruct (disk_write_succeeds 0
                (put_super junk
                   {| magic := FS_MAGIC; nblocks := disk_size st;
                      ninodeblocks := ceil_div (disk_size st) 10;
                      ninodes := ceil_div (disk_size st) 10 * INODES_PER_BLOCK |})
                st1) as [st2 Hw]; [lia |].
    rewrite Hw. cbn [obind]. by eexists.
Qed.

(** ** The inode manager *)

Lemma stored_int v : INT_MIN <= v <= INT_MAX -> stored v = v.
Proof. apply signed32_wrap. Qed.

Section Inodes.

Implicit Types (st : fs_state) (blk : block) (ino : fs_inode)
  (slot : nat) (inumber : Z).

Lemma put_inode_wide blk slot ino :
  block_wide blk -> (slot < 128)%nat -> block_wide (put_inode blk slot ino).
Proof.
  unfold block_wide, DISK_BLOCK_SIZE. intros Hb Hs.
  unfold put_inode, put_direct. cbn [seq foldl]. len_solve.
Qed.

(** A record read back from the slot it was stored in. *)
Lemma inode_of_put_inode blk slot ino :
  block_wide blk -> (slot < 128)%nat ->
  inode_of (put_inode blk slot ino) slot =
  {| isvalid := stored (isvalid ino);
     size := stored (size ino);
     direct := map (fun d => stored (nth d (direct ino) 0)) (seq 0 5);
     indirect := stored (indirect ino) |}.
Proof.
  unfold block_wide, DISK_BLOCK_SIZE. intros Hb Hs.
  unfold inode_of, put_inode, put_direct, stored. cbn [seq foldl map].
  repeat first
    [ rewrite get_set_int_eq by len_solve
    | rewrite get_set_int_ne by len_solve ].
  reflexivity.
Qed.

(** The other slots of the block keep their records. *)
Lemma inode_of_put_inode_ne blk slot slot' ino :
  block_wide blk -> (slot < 128)%nat -> slot' <> slot ->
  inode_of (put_inode blk slot ino) slot' = inode_of blk slot'.
Proof.
  unfold block_wide, DISK_BLOCK_SIZE. intros Hb Hs Hne.
  unfold inode_of, put_inode, put_direct. cbn [seq foldl map].
  repeat rewrite get_set_int_ne by len_solve.
  reflexivity.
Qed.

(** What a record decoded from a block looks like. *)
Lemma inode_of_stored blk slot :
  let ino := inode_of blk slot in
  stored (isvalid ino) = isvalid ino /\
  stored (size ino) = size ino /\
  map (fun d => stored (nth d (direct ino) 0)) (seq 0 5) = direct ino /\
  stored (indirect ino) = indirect ino.
Proof.
  cbn [inode_of isvalid size direct indirect seq map nth].
  rewrite !stored_int by apply get_int_range. done.
Qed.

Lemma inode_load_Ok inumber st ino :
  0 <= inumber ->
  inode_load inumber st = Ok ino <->
  exists blk,
    disk_read (1 + Z.quot inumber INODES_PER_BLOCK) st = Ok blk /\
    ino = inode_of blk (Z.to_nat (Z.rem inumber INODES_PER_BLOCK)).
Proof.
  intros Hi. unfold inode_load.
  assert (Hrem : (0 <=? Z.rem inumber INODES_PER_BLOCK) = true).
  { apply Z.leb_le, Z.rem_nonneg; unfold INODES_PER_BLOCK; lia. }
  rewrite Hrem.
  destruct (disk_read _ st) as [blk | f]; cbn [obind]; split.
  - intros [= <-]. by eexists.
  - intros (? & [= <-] & ->). done.
  - done.
  - intros (? & [=] & _).
Qed.

Lemma slot_range inumber :
  0 <= inumber -> (Z.to_nat (Z.rem inumber INODES_PER_BLOCK) < 128)%nat.
Proof.
  intros Hi. unfold INODES_PER_BLOCK.
  pose proof (Z.rem_bound_pos inumber 128 Hi ltac:(lia)). lia.
Qed.

(** [inode_save] then [inode_load] of the same inumber. *)
Lemma inode_load_save inumber ino st st' :
  wf_disk (disk st) -> 0 <= inumber ->
  inode_save inumber ino st = Ok st' ->
  inode_load inumber st' =
  Ok {| isvalid := stored (isvalid ino);
        size := stored (size ino);
        direct := map (fun d => stored (nth d (direct ino) 0)) (seq 0 5);
        indirect := stored (indirect ino) |}.
Proof.
  intros Hwf Hi. unfold inode_save.
  assert (Hrem : (0 <=? Z.rem inumber INODES_PER_BLOCK) = true).
  { apply Z.leb_le, Z.rem_nonneg; unfold INODES_PER_BLOCK; lia. }
  rewrite Hrem.
  destruct (disk_read _ st) as [blk | f] eqn:Hrd; cbn [obind]; [| done].
  intros Hw. apply inode_load_Ok; [done |].
  eexists. split; [by eapply disk_read_write_eq |].
  symmetry. apply inode_of_put_inode; [by eapply disk_read_wf |].
  by apply slot_range.
Qed.

Lemma inode_save_bm inumber ino st st' :
  inode_save inumber ino st = Ok st' ->
  free_block_bm st' = free_block_bm st /\ is_mounted st' = is_mounted st.
Proof.
  unfold inode_save.
  destruct (disk_read _ st); cbn [obind]; [| done].
  destruct (0 <=? _); [| done].
  intros [_ ->]%disk_write_Ok. done.
Qed.

End Inodes.

Lemma is_valid_inumber_true inumber st :
  is_valid_inumber inumber st = Ok true -> 0 < inumber.
Proof.
  unfold is_valid_inumber.
  destruct (disk_read 0 st); cbn [obind]; [| done].
  destruct (Z.ltb_spec 0 inumber); [done |]. cbn [andb]. done.
Qed.

(** ** The fuel of the overwrite loop *)

Section Fuel.

Lemma has_run_bind {A B} (m : outcome A) (k : A -> outcome B) :
  has_run m -> (forall a, m = Ok a -> has_run (k a)) -> has_run (obind m k).
Proof.
  unfold has_run. destruct m as [a | f]; cbn [obind].
  - intros _ Hk. by apply Hk.
  - intros Hf _ [= ->]. by apply Hf.
Qed.

Lemma int_chk_has_run z : has_run (int_chk z).
Proof. unfold has_run, int_chk. by destruct (in_int z). Qed.

Lemma zlookup_has_run {A} (l : list A) i : has_run (zlookup l i).
Proof.
  unfold has_run, zlookup. destruct (0 <=? i); [| done].
  by destruct (l !! Z.to_nat i).
Qed.

Lemma zupdate_has_run {A} (l : list A) i x : has_run (zupdate l i x).
Proof. unfold has_run, zupdate. by destruct (_ && _). Qed.

Lemma memcpy_in_has_run buf off src soff n :
  has_run (memcpy_in buf off src soff n).
Proof.
  unfold has_run, memcpy_in.
  destruct (_ && _ && _); [| done]. by destruct (_ && _).
Qed.

Lemma set_pointer_has_run blk idx b : has_run (set_pointer blk idx b).
Proof. unfold has_run, set_pointer. by destruct (_ && _). Qed.

Lemma disk_read_has_run n st : has_run (disk_read n st).
Proof.
  unfold has_run, disk_read. destruct (0 <=? n); [| done].
  by destruct (disk st !! Z.to_nat n).
Qed.

Lemma disk_write_has_run n blk st : has_run (disk_write n blk st).
Proof. unfold has_run, disk_write. by destruct (_ && _). Qed.

Lemma inode_load_has_run inumber st : has_run (inode_load inumber st).
Proof.
  unfold inode_load. apply has_run_bind; [apply disk_read_has_run |].
  intros blk _. by destruct (0 <=? _).
Qed.

Lemma inode_save_has_run inumber ino st :
  has_run (inode_save inumber ino st).
Proof.
  unfold inode_save. apply has_run_bind; [apply disk_read_has_run |].
  intros blk _. destruct (0 <=? _); [apply disk_write_has_run | done].
Qed.

Lemma is_valid_inumber_has_run inumber st :
  has_run (is_valid_inumber inumber st).
Proof.
  unfold is_valid_inumber. apply has_run_bind; [apply disk_read_has_run |].
  intros blk _. destruct (_ && _); [| done].
  apply has_run_bind; [apply inode_load_has_run | done].
Qed.

(** [%] of C: the result is smaller than the divisor in absolute value. *)
Lemma block_offset_of_bound offset offset_ptr :
  - DISK_BLOCK_SIZE < block_offset_of offset offset_ptr < DISK_BLOCK_SIZE.
Proof.
  unfold block_offset_of, DISK_BLOCK_SIZE.
  pose proof (Z.rem_bound_abs (offset - offset_ptr * 4096) 4096 ltac:(lia)).
  lia.
Qed.

(** Each further turn of the overwrite loop has taken at least one byte
    off [length], so [length] turns are enough. *)
Lemma overwrite_loop_has_run fuel :
  forall inode indirect_block data offset sz length offset_ptr write_counter
         blk st,
  0 < length -> (Z.to_nat length <= fuel)%nat ->
  has_run (overwrite_loop fuel inode indirect_block data offset sz length
             offset_ptr write_counter blk st).
Proof.
  induction fuel as [| fuel IH]; intros * Hlen Hfuel; [lia |].
  cbn [overwrite_loop].
  apply has_run_bind; [apply int_chk_has_run |]. intros left _.
  destruct (left <=? 0); [done |].
  apply has_run_bind.
  { destruct (offset_ptr <? POINTERS_PER_INODE); apply zlookup_has_run. }
  intros block_num _.
  apply has_run_bind; [apply int_chk_has_run |]. intros reach _.
  pose proof (block_offset_of_bound offset offset_ptr) as Hoff.
  destruct (reach <? DISK_BLOCK_SIZE).
  - apply has_run_bind; [apply memcpy_in_has_run |]. intros blk' _.
    apply has_run_bind; [apply disk_write_has_run |]. done.
  - apply has_run_bind; [apply memcpy_in_has_run |]. intros blk' _.
    apply has_run_bind; [apply disk_write_has_run |]. intros st' _.
    destruct (Z.leb_spec
                (length - (DISK_BLOCK_SIZE - block_offset_of offset offset_ptr))
                0); [done |].
    apply IH; lia.
Qed.

Lemma extend_loop_has_run n :
  forall b inumber data offset inode has_indirect free_direct free_indirect
         length offset_ptr write_counter blk st,
  has_run (extend_loop n b inumber data offset inode has_indirect free_direct
             free_indirect length offset_ptr write_counter blk st).
Proof.
  induction n as [| n IH]; intros *; cbn [extend_loop]; [done |].
  destruct (length <=? 0); [done |].
  apply has_run_bind; [apply zlookup_has_run |]. intros free _.
  destruct free; cbn [negb]; [| apply IH].
  apply has_run_bind; [apply zupdate_has_run |]. intros bm _.
  destruct (_ && _).
  { apply has_run_bind; [apply inode_save_has_run |]. intros; apply IH. }
  apply has_run_bind; [apply int_chk_has_run |]. intros reach _.
  apply has_run_bind; [apply memcpy_in_has_run |]. intros blk' _.
  apply has_run_bind; [apply int_chk_has_run |]. intros sz _.
  destruct (0 <? free_direct).
  { apply has_run_bind; [apply zupdate_has_run |]. intros ds _.
    apply has_run_bind; [apply inode_save_has_run |]. intros st1 _.
    apply has_run_bind; [apply disk_write_has_run |]. intros; apply IH. }
  destruct (_ && _).
  { apply has_run_bind; [apply disk_read_has_run |]. intros ib _.
    apply has_run_bind; [apply set_pointer_has_run |]. intros ib' _.
    apply has_run_bind; [apply disk_write_has_run |]. intros st1 _.
    apply has_run_bind; [apply inode_save_has_run |]. intros st2 _.
    apply has_run_bind; [apply disk_write_has_run |]. intros; apply IH. }
  apply has_run_bind; [apply inode_save_has_run |]. intros st1 _.
  apply has_run_bind; [apply disk_write_has_run |]. intros; apply IH.
Qed.

(** X15. [fs_write] gives its overwrite loop all the fuel it needs:
    whatever the arguments and the state, the call returns or stops at a
    fault of the C code. *)
Lemma fs_write_has_run junk_block junk_indirect inumber data length offset st :
  has_run (fs_write junk_block junk_indirect inumber data length offset st).
Proof.
  unfold fs_write.
  destruct (negb (is_mounted st)); [done |].
  apply has_run_bind; [apply is_valid_inumber_has_run |]. intros valid _.
  destruct (negb valid); [done |].
  destruct (Z.leb_spec length 0); cbn [orb]; [done |].
  destruct (offset <? 0); [done |].
  apply has_run_bind; [apply inode_load_has_run |]. intros inode _.
  apply has_run_bind.
  { destruct (_ <? _); [apply disk_read_has_run | done]. }
  intros indirect_block _.
  apply has_run_bind; [apply overwrite_loop_has_run; lia |].
  intros [[wc | len optr wc blk] st1] _; [done |].
  apply has_run_bind; [apply disk_read_has_run |]. intros sb _.
  apply extend_loop_has_run.
Qed.

End Fuel.

(** ** fs_create *)

Section Create.

Implicit Types (st : fs_state) (ino : fs_inode) (i r : Z).

(** The scan of [fs_create] from [i] over [n] inumbers. If it returns 0,
    nothing was written and each of the [n] slots is valid. Otherwise it
    returns the first inumber whose slot was invalid, and that inode is
    now valid with size 0 and direct pointers 0; the indirect pointer is
    the one the slot held. *)
Lemma create_scan_spec n : forall i st r st',
  wf_disk (disk st) -> 1 <= i ->
  create_scan n i st = Ok (r, st') ->
  (forall j, i <= j < (if r =? 0 then i + Z.of_nat n else r) ->
     exists ino, inode_load j st = Ok ino /\ isvalid ino <> 0) /\
  (r = 0 -> st' = st) /\
  (r <> 0 ->
   i <= r < i + Z.of_nat n /\
   exists old,
     inode_load r st = Ok old /\ isvalid old = 0 /\
     inode_load r st' =
     Ok {| isvalid := 1; size := 0;
           direct := [0; 0; 0; 0; 0]; indirect := indirect old |}).
Proof.
  induction n as [| n IH]; intros i st r st' Hwf Hi; cbn [create_scan].
  { intros [= <- <-]. split_and!; [| done | done].
    intros j Hj. cbn in Hj. lia. }
  destruct (inode_load i st) as [ino | f] eqn:Hload; cbn [obind]; [| done].
  destruct (Z.eqb_spec (isvalid ino) 0) as [Hinv | Hval].
  - (* the slot is free: it is taken *)
    destruct (inode_save i _ st) as [st1 | f] eqn:Hsave; cbn [obind]; [| done].
    intros [= <- <-].
    assert (Hr : (i =? 0) = false) by lia. rewrite Hr.
    split_and!; [intros j Hj; lia | lia |].
    intros _. split; [lia |]. exists ino. split_and!; [done | done |].
    apply inode_load_save in Hsave; [| done | lia].
    rewrite Hsave. cbn [isvalid size direct indirect].
    apply inode_load_Ok in Hload as (blk & _ & ->); [| lia].
    pose proof (inode_of_stored blk (Z.to_nat (Z.rem i INODES_PER_BLOCK)))
      as (_ & _ & _ & Hind).
    cbn zeta in Hind. rewrite Hind. reflexivity.
  - (* the slot is in use: on to the next one *)
    intros Hrec. apply IH in Hrec as (Hbefore & Hzero & Hnew); [| done | lia].
    split_and!.
    + intros j Hj. destruct (Z.eq_dec j i) as [-> | Hne].
      * by exists ino.
      * apply Hbefore. destruct (r =? 0); lia.
    + done.
    + intros Hr. destruct (Hnew Hr) as [Hrange Hold]. split; [lia | done].
Qed.

(** X2. [fs_create] on a mounted volume whose superblock counts [ninodes]
    inodes: the part of C4 that holds on the code. *)
Lemma fs_create_spec st r st' sb :
  wf_disk (disk st) -> is_mounted st = true ->
  disk_read 0 st = Ok sb ->
  fs_create st = Ok (r, st') ->
  (forall j, 1 <= j < (if r =? 0 then ninodes (super_of sb) else r) ->
     exists ino, inode_load j st = Ok ino /\ isvalid ino <> 0) /\
  (r = 0 -> st' = st) /\
  (r <> 0 ->
   1 <= r < ninodes (super_of sb) /\
   exists old,
     inode_load r st = Ok old /\ isvalid old = 0 /\
     inode_load r st' =
     Ok {| isvalid := 1; size := 0;
           direct := [0; 0; 0; 0; 0]; indirect := indirect old |}).
Proof.
  intros Hwf Hm Hsb. unfold fs_create. rewrite Hm, Hsb. cbn [negb obind].
  intros Hscan. apply create_scan_spec in Hscan
    as (Hbefore & Hzero & Hnew); [| done | lia].
  split_and!; [| done |].
  - intros j Hj. apply Hbefore. destruct (r =? 0); lia.
  - intros Hr. destruct (Hnew Hr) as [Hrange Hold]. split; [lia | done].
Qed.

End Create.

(** * The claims *)

(** ** C2: precondition failures of write *)

(** C2, as amended. [fs_write] returns 0 and leaves the state as it was
    (no block written, the free-block bitmap untouched) when the volume is
    not mounted, when the inumber is invalid, and when [length <= 0] or
    [offset < 0]; [fs_read] returns 0 bytes under the same conditions.
    [offset >= size], which makes [fs_read] fail, is not among them. *)
Theorem fs_write_precondition_failure
    junk_block junk_indirect inumber data length offset st :
  is_mounted st = false \/
  is_valid_inumber inumber st = Ok false \/
  ((exists v, is_valid_inumber inumber st = Ok v) /\
   (length <= 0 \/ offset < 0)) ->
  fs_write junk_block junk_indirect inumber data length offset st
    = Ok (0, st) /\
  fs_read inumber length offset st = Ok (0, []).
Proof.
  unfold fs_write, fs_read.
  intros [Hm | [Hv | [[v Hv] Harg]]].
  - by rewrite Hm.
  - destruct (is_mounted st); [| done]. by rewrite Hv.
  - destruct (is_mounted st); [| done]. rewrite Hv. cbn [obind negb].
    destruct v; [| done]. cbn [negb].
    assert (Hchk : (length <=? 0) || (offset <? 0) = true).
    { apply orb_true_iff. destruct Harg; [left | right]; lia. }
    by rewrite Hchk.
Qed.

Lemma fs_write_precondition_failure_witness :
  (is_mounted vol_one_file = false \/
   is_valid_inumber 1 vol_one_file = Ok false \/
   ((exists v, is_valid_inumber 1 vol_one_file = Ok v) /\
    (0 <= 0 \/ 4096 < 0))) /\
  write0 1 (bytes chr_A 4096) 0 4096 vol_one_file = Ok (0, vol_one_file) /\
  fs_read 1 0 4096 vol_one_file = Ok (0, []).
Proof.
  assert (Hpre : is_mounted vol_one_file = false \/
                 is_valid_inumber 1 vol_one_file = Ok false \/
                 ((exists v, is_valid_inumber 1 vol_one_file = Ok v) /\
                  (0 <= 0 \/ 4096 < 0))).
  { right. right. split; [| left; lia].
    exists true. vm_compute. reflexivity. }
  split; [exact Hpre |].
  exact (fs_write_precondition_failure zero_block zero_block 1
           (bytes chr_A 4096) 0 4096 vol_one_file Hpre).
Defined.

(** C2, as stated, fails: on a mounted volume with the valid, empty file 1,
    offset 0 is not below the file's size 0 and [fs_read] returns 0, yet
    [fs_write] returns 4096, having written the inode block and block 2
    and taken block 2 from the free-block bitmap. *)
Lemma fs_write_at_end_is_not_a_failure :
  is_mounted vol_one_file = true /\
  is_valid_inumber 1 vol_one_file = Ok true /\
  fs_getsize 1 vol_one_file = Ok 0 /\
  fs_read 1 4096 0 vol_one_file = Ok (0, []) /\
  result (write0 1 (bytes chr_A 4096) 4096 0 vol_one_file) = Ok 4096 /\
  writes (after (write0 1 (bytes chr_A 4096) 4096 0) vol_one_file)
    = writes vol_one_file ++ [1; 2] /\
  free_block_bm vol_one_file !! 2%nat = Some true /\
  free_block_bm (after (write0 1 (bytes chr_A 4096) 4096 0) vol_one_file)
    !! 2%nat = Some false.
Proof. split_and!; vm_compute; reflexivity. Qed.

(** ** C9: what delete leaves in the slot *)

(** C9, as amended. When [fs_delete inumber] succeeds, the slot is invalid
    afterwards and its five direct pointers and its indirect pointer are
    the ones it held before: delete does not zero the slot. *)
Theorem fs_delete_keeps_pointers inumber st st' ino :
  wf_disk (disk st) ->
  inode_load inumber st = Ok ino ->
  fs_delete inumber st = Ok (1, st') ->
  exists ino',
    inode_load inumber st' = Ok ino' /\
    isvalid ino' = 0 /\
    direct ino' = direct ino /\
    indirect ino' = indirect ino.
Proof.
  intros Hwf Hload. unfold fs_delete.
  destruct (is_mounted st); cbn [negb]; [| done].
  destruct (is_valid_inumber inumber st) as [[] | f] eqn:Hv;
    cbn [obind negb]; [| done | done].
  apply is_valid_inumber_true in Hv.
  rewrite Hload. cbn [obind].
  destruct (walk_inode true true ino (free_block_bm st) st)
    as [[sz bm] | f]; cbn [obind]; [| done].
  destruct (inode_save _ _ _) as [st1 | f] eqn:Hsave; cbn [obind]; [| done].
  intros [= <-].
  apply inode_load_save in Hsave; [| done | lia].
  cbn [isvalid size direct indirect] in Hsave.
  eexists. split; [exact Hsave |]. cbn [isvalid direct indirect].
  apply inode_load_Ok in Hload as (blk & _ & ->); [| lia].
  pose proof (inode_of_stored blk (Z.to_nat (Z.rem inumber INODES_PER_BLOCK)))
    as (_ & _ & Hd & Hi).
  split_and!; [reflexivity | exact Hd | exact Hi].
Qed.

Lemma fs_delete_keeps_pointers_witness :
  wf_disk (disk vol_six_blocks) /\
  inode_load 1 vol_six_blocks
    = Ok {| isvalid := 1; size := 24576;
            direct := [2; 3; 4; 5; 6]; indirect := 7 |} /\
  fs_delete 1 vol_six_blocks = Ok (1, after (fs_delete 1) vol_six_blocks) /\
  exists ino',
    inode_load 1 (after (fs_delete 1) vol_six_blocks) = Ok ino' /\
    isvalid ino' = 0 /\
    direct ino' = [2; 3; 4; 5; 6] /\
    indirect ino' = 7.
Proof.
  assert (Hwf : wf_disk (disk vol_six_blocks))
    by (apply wf_diskb_true; vm_compute; reflexivity).
  assert (Hload : inode_load 1 vol_six_blocks
                  = Ok {| isvalid := 1; size := 24576;
                          direct := [2; 3; 4; 5; 6]; indirect := 7 |})
    by (vm_compute; reflexivity).
  assert (Hdel : fs_delete 1 vol_six_blocks
                 = Ok (1, after (fs_delete 1) vol_six_blocks))
    by (vm_compute; reflexivity).
  split_and!; [exact Hwf | exact Hload | exact Hdel |].
  exact (fs_delete_keeps_pointers 1 _ _ _ Hwf Hload Hdel).
Defined.

(** C9, as stated, fails: file 1 holds six blocks; after [fs_delete 1]
    succeeded, its slot is invalid and still carries the five direct
    pointers and the indirect pointer. *)
Lemma fs_delete_leaves_pointers_in_slot :
  fs_delete 1 vol_six_blocks = Ok (1, after (fs_delete 1) vol_six_blocks) /\
  inode_load 1 (after (fs_delete 1) vol_six_blocks)
    = Ok {| isvalid := 0; size := 0;
            direct := [2; 3; 4; 5; 6]; indirect := 7 |}.
Proof. split; vm_compute; reflexivity. Qed.

(** ** C6: format *)

Lemma fs_format_spec_witness :
  wf_disk (disk (blank_device 10)) /\
  block_wide zero_block /\
  exists st',
    fs_format zero_block (blank_device 10) = Ok (1, st') /\
    exists new,
      disk_read 0 st' = Ok new /\
      magic_ok (super_of new) = true /\
      nblocks (super_of new) = 10 /\
      ninodeblocks (super_of new) = 1 /\
      ninodes (super_of new) = 128 /\
      writes st' = [0].
Proof.
  assert (Hwf : wf_disk (disk (blank_device 10)))
    by (apply wf_diskb_true; vm_compute; reflexivity).
  split_and!; [exact Hwf | exact zero_block_wide |].
  destruct (fs_format_spec zero_block (blank_device 10) Hwf zero_block_wide)
    as (_ & Hpost & Hruns).
  destruct Hruns as [st' Hst'].
  - reflexivity.
  - vm_compute. reflexivity.
  - vm_compute. discriminate.
  - intros old Hold Hmagic. exfalso.
    vm_compute in Hold. injection Hold as <-.
    vm_compute in Hmagic. discriminate.
  - exists st'. split; [exact Hst' |].
    destruct (Hpost eq_refl 1 st' Hst')
      as (old & new & Hold & Hnew & _ & Hmagic & Hnb & Hnib & Hnin & _ & _
          & _ & Habsent).
    exists new. rewrite Hnin, Hnib, Hnb.
    split_and!; [exact Hnew | exact Hmagic | reflexivity | reflexivity
                | reflexivity |].
    apply Habsent.
    vm_compute in Hold. injection Hold as <-. vm_compute. reflexivity.
Defined.

(** ** How the volumes above were reached *)

(** Every call on the way to the volumes returned, with these values. *)
Lemma volumes_history :
  result (fs_format zero_block (blank_device 10)) = Ok 1 /\
  result (fs_mount (after (fs_format zero_block) (blank_device 10))) = Ok 1 /\
  result (fs_create vol_mounted) = Ok 1 /\
  result (fs_create vol_one_file) = Ok 2 /\
  result (write0 1 (bytes chr_A 100) 100 0 vol_one_file) = Ok 100 /\
  result (write0 1 (bytes chr_A 8192) 8192 0 vol_one_file) = Ok 8192 /\
  result (write0 1 (bytes chr_A 24576) 24576 0 vol_one_file) = Ok 24576.
Proof. split_and!; vm_compute; reflexivity. Qed.

Lemma vol_gap_history :
  let s1 := after (write0 1 (bytes chr_A 4096) 4096 0) vol_two_files in
  let s2 := after (write0 2 (bytes chr_X 4096) 4096 0) s1 in
  let s3 := after (write0 1 (bytes chr_B 4096) 4096 4096) s2 in
  result (write0 1 (bytes chr_A 4096) 4096 0 vol_two_files) = Ok 4096 /\
  result (write0 2 (bytes chr_X 4096) 4096 0 s1) = Ok 4096 /\
  result (write0 1 (bytes chr_B 4096) 4096 4096 s2) = Ok 4096 /\
  result (fs_delete 2 s3) = Ok 1 /\
  vol_gap = after (fs_delete 2) s3 /\
  free_block_bm vol_gap
    = [false; false; false; true; false; true; true; true; true; true].
Proof. split_and!; vm_compute; reflexivity. Qed.

Lemma vol_full_history :
  let s1 := after (write0 2 (bytes chr_X 8192) 8192 0) vol_two_files in
  result (write0 2 (bytes chr_X 8192) 8192 0 vol_two_files) = Ok 8192 /\
  result (write0 1 (bytes chr_A 24576) 24576 0 s1) = Ok 20480 /\
  vol_full = after (write0 1 (bytes chr_A 24576) 24576 0) s1 /\
  result (fs_delete 2 vol_full) = Ok 1.
Proof. split_and!; vm_compute; reflexivity. Qed.

(** ** C1: write then read *)

(** C1 fails on the code. On [vol_gap], file 1 holds blocks 2 and 4 and
    block 3 is free. Writing 4096 bytes ['C'] at offset 8192 succeeds and
    the file is 12288 bytes long, so the range [8192, 12288) lies within
    the file; reading that range returns 4096 bytes, all ['B']: the bytes
    written at offset 4096 before. *)
Theorem write_then_read_returns_other_bytes :
  result (write0 1 (bytes chr_C 4096) 4096 8192 vol_gap) = Ok 4096 /\
  fs_getsize 1 vol_out_of_order = Ok 12288 /\
  fs_read 1 4096 8192 vol_out_of_order = Ok (4096, bytes chr_B 4096) /\
  bytes chr_B 4096 <> bytes chr_C 4096.
Proof.
  split_and!; try (vm_compute; reflexivity).
  intros H. apply (f_equal (fun l => l !! 0%nat)) in H.
  vm_compute in H. discriminate H.
Qed.

(** ** C3: the count read returns *)

(** C3 fails on the code. File 1 holds 100 bytes; a read of 10 bytes at
    offset 0 succeeds and returns 100, with 100 bytes copied. *)
Theorem fs_read_returns_more_than_length :
  fs_getsize 1 vol_small_file = Ok 100 /\
  fs_read 1 10 0 vol_small_file = Ok (100, bytes chr_A 100) /\
  10 < 100.
Proof. split_and!; [vm_compute; reflexivity .. | lia]. Qed.

(** ** C4: the inode create returns *)

(** C4 fails on the code. File 1 held six blocks and was deleted, which
    leaves every slot from 1 on invalid; [fs_create] returns 1, the
    smallest such inumber, and the inode is valid with size 0 and direct
    pointers 0, but its indirect pointer is 7, the indirect block of the
    deleted file. *)
Theorem fs_create_keeps_indirect_pointer :
  let st := after (fs_delete 1) vol_six_blocks in
  result (fs_delete 1 vol_six_blocks) = Ok 1 /\
  is_valid_inumber 1 st = Ok false /\
  result (fs_create st) = Ok 1 /\
  inode_load 1 (after fs_create st)
    = Ok {| isvalid := 1; size := 0;
            direct := [0; 0; 0; 0; 0]; indirect := 7 |}.
Proof. split_and!; vm_compute; reflexivity. Qed.

(** ** C5: the bytes around an overwritten range *)

(** C5 fails on the code. File 1 holds 100 bytes ['A'] in block 2. Writing
    one byte ['B'] at offset 0 is an overwrite (offset 0 is below size 100)
    of byte 0 of block 2. Byte 1 of block 2, outside the range, was ['A']
    and afterwards is what the local buffer held (zero here): whatever the
    buffer holds on entry, the block is written from the buffer, never
    loaded. *)
Theorem fs_write_overwrite_clobbers_block :
  inode_load 1 vol_small_file
    = Ok {| isvalid := 1; size := 100;
            direct := [2; 0; 0; 0; 0]; indirect := 0 |} /\
  disk_byte 2 1 vol_small_file = Ok (Some chr_A) /\
  (forall junk_block junk_indirect,
     let w := fs_write junk_block junk_indirect 1 (bytes chr_B 1) 1 0 in
     result (w vol_small_file) = Ok 1 /\
     fs_getsize 1 (after w vol_small_file) = Ok 100 /\
     disk_read 2 (after w vol_small_file) = Ok (chr_B :: drop 1 junk_block)) /\
  disk_byte 2 1 (after (write0 1 (bytes chr_B 1) 1 0) vol_small_file)
    = Ok (Some Byte.x00).
Proof.
  split_and!; try (vm_compute; reflexivity).
  intros junk_block junk_indirect. split_and!; vm_compute; reflexivity.
Qed.

(** ** C7: the order in which read enumerates the blocks *)

(** C7 fails on the code. On [vol_out_of_order] the direct pointers of file
    1 are 2, 4, 3. In slot order the logical blocks are 2, 4, 3, so the
    block holding offset 4096 is entry 1, block 4; [fs_read] visits the
    blocks by ascending id, 2, 3, 4, and a read at offset 4096 returns the
    content of block 3. *)
Theorem fs_read_enumerates_by_block_id :
  let st := vol_out_of_order in
  let inode := {| isvalid := 1; size := 12288;
                  direct := [2; 4; 3; 0; 0]; indirect := 0 |} in
  inode_load 1 st = Ok inode /\
  logical_blocks inode st = Ok [2; 4; 3] /\
  (blocks <- read_blocks 10 inode st ;; Ok (visited_blocks blocks))
    = Ok [2; 3; 4] /\
  Z.quot 4096 DISK_BLOCK_SIZE = 1 /\
  disk_read 4 st = Ok (bytes chr_B 4096) /\
  disk_read 3 st = Ok (bytes chr_C 4096) /\
  fs_read 1 4096 4096 st = Ok (4096, bytes chr_C 4096).
Proof. split_and!; vm_compute; reflexivity. Qed.

(** ** C8: the indirect block *)

(** C8 fails on the code. On [vol_full] file 1 holds five direct blocks,
    size [5 * 4096], and block 9 was claimed as its indirect block by the
    write that ran out of blocks. After blocks 2 and 3 became free, the
    write that takes the size past [5 * 4096] claims block 2 as the
    indirect block as well: two blocks were claimed, block 9 stays busy
    and is referenced by nothing. *)
Theorem fs_write_claims_second_indirect_block :
  let st' := after (write0 1 (bytes chr_B 4096) 4096 20480) vol_room_again in
  inode_load 1 vol_room_again
    = Ok {| isvalid := 1; size := 20480;
            direct := [4; 5; 6; 7; 8]; indirect := 9 |} /\
  free_block_bm vol_room_again
    = [false; false; true; true; false; false; false; false; false; false] /\
  result (write0 1 (bytes chr_B 4096) 4096 20480 vol_room_again) = Ok 4096 /\
  inode_load 1 st'
    = Ok {| isvalid := 1; size := 24576;
            direct := [4; 5; 6; 7; 8]; indirect := 2 |} /\
  free_block_bm st'
    = [false; false; false; false; false; false; false; false; false; false].
Proof. split_and!; vm_compute; reflexivity. Qed.

(** ** C10: the intra-block offset *)

(** C10 fails on the code. File 1 holds 8192 bytes. A write of 5000 bytes
    at offset 100 copies 3996 bytes at offset 100 of the first block; for
    the second chunk [offset_ptr] is 1 and the computed intra-block offset
    is [-3996], so the copy of the remaining 1004 bytes starts before the
    buffer. *)
Theorem fs_write_block_offset_negative :
  fs_getsize 1 vol_two_blocks = Ok 8192 /\
  block_offset_of 100 (Z.quot 100 DISK_BLOCK_SIZE) = 100 /\
  block_offset_of 100 (Z.quot 100 DISK_BLOCK_SIZE + 1) = -3996 /\
  write0 1 (bytes chr_B 5000) 5000 100 vol_two_blocks
    = Fault (BufferOverrun (-3996) 1004).
Proof. split_and!; vm_compute; reflexivity. Qed.

(** * Further properties of the code *)

(** ** The inode manager: what a save changes *)

Section InodeFrame.

Implicit Types (st : fs_state) (blk : block) (ino : fs_inode)
  (inumber j : Z).

Lemma inode_save_Ok inumber ino st st' :
  0 <= inumber ->
  inode_save inumber ino st = Ok st' <->
  exists blk,
    disk_read (1 + Z.quot inumber INODES_PER_BLOCK) st = Ok blk /\
    disk_write (1 + Z.quot inumber INODES_PER_BLOCK)
      (put_inode blk (Z.to_nat (Z.rem inumber INODES_PER_BLOCK)) ino) st
    = Ok st'.
Proof.
  intros Hi. unfold inode_save.
  assert (Hrem : (0 <=? Z.rem inumber INODES_PER_BLOCK) = true).
  { apply Z.leb_le, Z.rem_nonneg; unfold INODES_PER_BLOCK; lia. }
  rewrite Hrem.
  destruct (disk_read _ st) as [blk | f]; cbn [obind]; split.
  - intros Hw. by exists blk.
  - intros (? & [= <-] & Hw). done.
  - done.
  - intros (? & [=] & _).
Qed.

Lemma inode_block_pos inumber :
  0 <= inumber -> 1 <= 1 + Z.quot inumber INODES_PER_BLOCK.
Proof.
  intros Hi. pose proof (Z.quot_pos inumber INODES_PER_BLOCK Hi).
  unfold INODES_PER_BLOCK in *. lia.
Qed.

(** Two inumbers in the same block of the table lie in different slots. *)
Lemma slot_ne inumber j :
  0 <= inumber -> 0 <= j -> j <> inumber ->
  Z.quot j INODES_PER_BLOCK = Z.quot inumber INODES_PER_BLOCK ->
  Z.to_nat (Z.rem j INODES_PER_BLOCK)
  <> Z.to_nat (Z.rem inumber INODES_PER_BLOCK).
Proof.
  unfold INODES_PER_BLOCK. intros Hi Hj Hne Hq Hr.
  pose proof (Z.quot_rem' j 128) as Hdj.
  pose proof (Z.rem_nonneg j 128 ltac:(lia) Hj).
  pose proof (Z.rem_nonneg inumber 128 ltac:(lia) Hi).
  apply Z2Nat.inj in Hr; [| lia | lia].
  rewrite Hq, Hr in Hdj. pose proof (Z.quot_rem' inumber 128). lia.
Qed.

Lemma inode_save_frame inumber ino st st' :
  wf_disk (disk st) -> 0 <= inumber ->
  inode_save inumber ino st = Ok st' ->
  wf_disk (disk st') /\
  disk_size st' = disk_size st /\
  is_mounted st' = is_mounted st /\
  free_block_bm st' = free_block_bm st /\
  writes st' = writes st ++ [1 + Z.quot inumber INODES_PER_BLOCK] /\
  (forall m, 0 <= m -> m <> 1 + Z.quot inumber INODES_PER_BLOCK ->
     disk_read m st' = disk_read m st) /\
  (forall j, 0 <= j -> j <> inumber -> inode_load j st' = inode_load j st).
Proof.
  intros Hwf Hi (blk & Hrd & Hw)%inode_save_Ok; [| done].
  pose proof (disk_read_wf _ _ _ Hwf Hrd) as Hblk.
  pose proof (slot_range _ Hi) as Hslot.
  pose proof Hw as [_ Hst']%disk_write_Ok.
  split_and!.
  - eapply disk_write_wf; [done | | done]. by apply put_inode_wide.
  - by eapply disk_write_size.
  - by rewrite Hst'.
  - by rewrite Hst'.
  - by rewrite Hst'.
  - intros m Hm Hne. by eapply disk_read_write_ne.
  - intros j Hj Hne. unfold inode_load.
    destruct (Z.eq_dec (Z.quot j INODES_PER_BLOCK)
                (Z.quot inumber INODES_PER_BLOCK)) as [Hq | Hq].
    + rewrite Hq, (disk_read_write_eq _ _ _ _ Hw), Hrd. cbn [obind].
      destruct (0 <=? _); [| done]. f_equal.
      apply inode_of_put_inode_ne; [done | done |]. by apply slot_ne.
    + assert (Hne' : 1 + Z.quot inumber INODES_PER_BLOCK
                     <> 1 + Z.quot j INODES_PER_BLOCK)
        by (intros Heq%Z.add_reg_l; by apply Hq).
      pose proof (inode_block_pos j Hj) as Hpos.
      rewrite (disk_read_write_ne _ (1 + Z.quot j INODES_PER_BLOCK)
                 _ _ _ Hne' ltac:(lia) Hw).
      done.
Qed.

End InodeFrame.

Lemma in_int_stored v : in_int v = true -> stored v = v.
Proof.
  unfold in_int. intros [H1%Z.leb_le H2%Z.leb_le]%andb_prop.
  by apply stored_int.
Qed.

Lemma int_inode_stored ino :
  int_inode ino ->
  {| isvalid := stored (isvalid ino);
     size := stored (size ino);
     direct := map (fun d => stored (nth d (direct ino) 0)) (seq 0 5);
     indirect := stored (indirect ino) |} = ino.
Proof.
  destruct ino as [v s ds ind]. unfold int_inode. cbn.
  intros (Hv & Hs & Hlen & Hds & Hind).
  rewrite !in_int_stored by done.
  do 6 (destruct ds as [| ? ds]; try discriminate Hlen).
  cbn in Hds. repeat (apply andb_prop in Hds as [? Hds]).
  cbn. rewrite !in_int_stored by done. reflexivity.
Qed.

(** X1. Round trip of the inode manager: an inode whose fields are C ints,
    saved under an inumber, is what [inode_load] of that inumber returns,
    and every other inumber loads what it loaded before. *)
Theorem inode_save_load_roundtrip inumber ino st st' :
  wf_disk (disk st) -> 0 <= inumber -> int_inode ino ->
  inode_save inumber ino st = Ok st' ->
  inode_load inumber st' = Ok ino /\
  forall j, 0 <= j -> j <> inumber -> inode_load j st' = inode_load j st.
Proof.
  intros Hwf Hi Hino Hsave. split.
  - rewrite (inode_load_save _ _ _ _ Hwf Hi Hsave).
    f_equal. by apply int_inode_stored.
  - by apply (inode_save_frame _ _ _ _ Hwf Hi Hsave).
Qed.

Lemma inode_save_load_roundtrip_witness :
  let ino := {| isvalid := 1; size := 12345;
                direct := [7; 0; -3; 9; 2]; indirect := 8 |} in
  wf_disk (disk vol_one_file) /\ 0 <= 130 /\ int_inode ino /\
  exists st',
    inode_save 130 ino vol_one_file = Ok st' /\
    inode_load 130 st' = Ok ino /\
    forall j, 0 <= j -> j <> 130 ->
      inode_load j st' = inode_load j vol_one_file.
Proof.
  cbv zeta.
  assert (Hwf : wf_disk (disk vol_one_file))
    by (apply wf_diskb_true; vm_compute; reflexivity).
  assert (Hino : int_inode {| isvalid := 1; size := 12345;
                              direct := [7; 0; -3; 9; 2]; indirect := 8 |})
    by (repeat split; reflexivity).
  split_and!; [exact Hwf | lia | exact Hino |].
  destruct (inode_save 130 {| isvalid := 1; size := 12345;
                              direct := [7; 0; -3; 9; 2]; indirect := 8 |}
              vol_one_file) as [st' | f] eqn:Hsave.
  - exists st'. split; [reflexivity |].
    exact (inode_save_load_roundtrip 130 _ _ _ Hwf ltac:(lia) Hino Hsave).
  - exfalso. vm_compute in Hsave. discriminate Hsave.
Defined.

(** ** fs_create and fs_delete: what else they change *)

Section CreateDelete.

Implicit Types (st : fs_state) (ino : fs_inode) (inumber j r : Z).

Lemma is_valid_inumber_Ok inumber st v :
  is_valid_inumber inumber st = Ok v <->
  exists sb,
    disk_read 0 st = Ok sb /\
    if (0 <? inumber) && (inumber <? ninodes (super_of sb))
    then exists ino, inode_load inumber st = Ok ino /\
                     v = negb (isvalid ino =? 0)
    else v = false.
Proof.
  unfold is_valid_inumber.
  destruct (disk_read 0 st) as [sb | f]; cbn [obind].
  2: { split; [done | intros (? & [=] & _)]. }
  split.
  - intros Hv. exists sb. split; [done |].
    destruct (_ && _); [| by injection Hv as <-].
    destruct (inode_load inumber st) as [ino | f]; cbn [obind] in Hv; [| done].
    injection Hv as <-. by exists ino.
  - intros (? & [= <-] & Hv).
    destruct (_ && _); [| by subst v].
    destruct Hv as (ino & -> & ->). done.
Qed.

(** A save in the inode table leaves the validity of every other inumber,
    and the superblock, as they were. *)
Lemma inode_save_valid_other inumber ino st st' j :
  wf_disk (disk st) -> 0 <= inumber ->
  inode_save inumber ino st = Ok st' ->
  j <> inumber ->
  disk_read 0 st' = disk_read 0 st /\
  is_valid_inumber j st' = is_valid_inumber j st.
Proof.
  intros Hwf Hi Hsave Hne.
  destruct (inode_save_frame _ _ _ _ Hwf Hi Hsave)
    as (_ & _ & _ & _ & _ & Hblocks & Hinodes).
  assert (H0 : disk_read 0 st' = disk_read 0 st).
  { apply Hblocks; [lia |]. pose proof (inode_block_pos _ Hi). lia. }
  split; [done |].
  unfold is_valid_inumber. rewrite H0.
  destruct (disk_read 0 st) as [sb | f]; cbn [obind]; [| done].
  destruct (Z.ltb_spec 0 j); cbn [andb]; [| done].
  destruct (j <? _); [| done].
  rewrite Hinodes by lia. done.
Qed.

Lemma create_scan_save n : forall i st r st',
  1 <= i -> create_scan n i st = Ok (r, st') ->
  (r = 0 /\ st' = st) \/
  (i <= r /\
   exists old,
     inode_load r st = Ok old /\ isvalid old = 0 /\
     inode_save r {| isvalid := 1; size := 0;
                     direct := clear_direct (direct old);
                     indirect := indirect old |} st = Ok st').
Proof.
  induction n as [| n IH]; intros i st r st' Hi; cbn [create_scan].
  { intros [= <- <-]. by left. }
  destruct (inode_load i st) as [ino | f] eqn:Hload; cbn [obind]; [| done].
  destruct (Z.eqb_spec (isvalid ino) 0) as [Hinv | Hval].
  - destruct (inode_save i _ st) as [st1 | f] eqn:Hsave; cbn [obind]; [| done].
    intros [= <- <-]. right. split; [lia |]. by exists ino.
  - intros [Hz | [Hr Hold]]%IH; [by left | right | lia].
    split; [lia | done].
Qed.

(** X3. A successful [fs_create] changes one record of the inode table and
    nothing else: the new inumber is valid and [fs_getsize] gives 0 for it;
    the volume stays mounted, the free-block bitmap, the superblock, every
    block outside the inode's table block and every other inode are as
    they were. *)
Theorem fs_create_frame st r st' :
  wf_disk (disk st) -> fs_create st = Ok (r, st') -> r <> 0 ->
  is_valid_inumber r st' = Ok true /\
  fs_getsize r st' = Ok 0 /\
  is_mounted st' = true /\
  free_block_bm st' = free_block_bm st /\
  writes st' = writes st ++ [1 + Z.quot r INODES_PER_BLOCK] /\
  (forall m, 0 <= m -> m <> 1 + Z.quot r INODES_PER_BLOCK ->
     disk_read m st' = disk_read m st) /\
  (forall j, 0 <= j -> j <> r ->
     inode_load j st' = inode_load j st /\
     is_valid_inumber j st' = is_valid_inumber j st).
Proof.
  intros Hwf Hcreate Hr. unfold fs_create in Hcreate.
  destruct (is_mounted st) eqn:Hm; cbn [negb] in Hcreate;
    [| injection Hcreate as <- <-; done].
  destruct (disk_read 0 st) as [sb | f] eqn:Hsb; cbn [obind] in Hcreate;
    [| done].
  pose proof Hcreate as Hspec.
  apply create_scan_spec in Hspec as (_ & _ & Hnew); [| done | lia].
  destruct (Hnew Hr) as [Hrange (old & Hold & Hinv & Hload')].
  apply create_scan_save in Hcreate as [[? _] | [_ (old' & Hold' & _ & Hsave)]];
    [done | | lia].
  assert (Hr0 : 0 <= r) by lia.
  destruct (inode_save_frame _ _ _ _ Hwf Hr0 Hsave)
    as (_ & _ & Hm' & Hbm & Hlog & Hblocks & Hinodes).
  assert (H0 : disk_read 0 st' = Ok sb).
  { rewrite Hblocks; [done | lia |].
    pose proof (inode_block_pos r ltac:(lia)). lia. }
  assert (Hvalid : is_valid_inumber r st' = Ok true).
  { apply is_valid_inumber_Ok. exists sb. split; [done |].
    assert (Hin : (0 <? r) && (r <? ninodes (super_of sb)) = true).
    { apply andb_true_intro. split; [apply Z.ltb_lt | apply Z.ltb_lt]; lia. }
    rewrite Hin. eexists. split; [exact Hload' | reflexivity]. }
  split_and!; try done.
  - unfold fs_getsize. rewrite Hm', Hm, Hvalid. cbn [negb obind].
    rewrite Hload'. reflexivity.
  - congruence.
  - intros j Hj Hne. split; [by apply Hinodes |].
    by destruct (inode_save_valid_other r _ st st' j Hwf Hr0 Hsave Hne).
Qed.

End CreateDelete.

(** ** Walking the pointers: which entries of the bitmap change *)

Section Walk.

Implicit Types (bm : list bool) (ptrs : list Z) (sz p : Z).

Lemma zupdate_Ok {A} (l : list A) i x l' :
  zupdate l i x = Ok l' <->
  0 <= i < Z.of_nat (length l) /\ l' = <[Z.to_nat i := x]> l.
Proof.
  unfold zupdate.
  destruct (Z.leb_spec 0 i), (Z.ltb_spec i (Z.of_nat (length l)));
    cbn [andb]; split; try done; try lia.
  - intros [= <-]. done.
  - intros [_ ->]. done.
Qed.

(** The loop enters [v] at the pointers of the slot-order enumeration,
    leaves every other entry alone and returns the size left. *)
Lemma walk_pointers_spec v ptrs : forall sz bm sz' bm',
  walk_pointers v ptrs sz bm = Ok (sz', bm') ->
  sz' = snd (pointers_in_slot_order ptrs sz) /\
  length bm' = length bm /\
  (forall p, p ∈ fst (pointers_in_slot_order ptrs sz) ->
     0 <= p < Z.of_nat (length bm) /\ bm' !! Z.to_nat p = Some v) /\
  (forall i : nat, Z.of_nat i ∉ fst (pointers_in_slot_order ptrs sz) ->
     bm' !! i = bm !! i).
Proof.
  induction ptrs as [| q rest IH]; intros sz bm sz' bm';
    cbn [walk_pointers pointers_in_slot_order].
  { intros [= <- <-]. split_and!; try done. intros p Hp. cbn in Hp.
    by apply elem_of_nil in Hp. }
  destruct (sz <=? 0).
  { intros [= <- <-]. split_and!; try done. intros p Hp. cbn in Hp.
    by apply elem_of_nil in Hp. }
  destruct (Z.eqb_spec q 0) as [-> | Hq]; [apply IH |].
  destruct (zupdate bm q v) as [bm1 | f] eqn:Hupd; cbn [obind]; [| done].
  apply zupdate_Ok in Hupd as [Hrange ->].
  intros (Hsz & Hlen & Hmark & Hkeep)%IH.
  rewrite length_insert in Hlen, Hmark. cbn [fst snd].
  split_and!; [done | done | |].
  - intros p [-> | Hp]%elem_of_cons; [| by apply Hmark].
    split; [done |].
    destruct (decide (q ∈ fst (pointers_in_slot_order rest
                                 (sz - DISK_BLOCK_SIZE)))) as [Hin | Hout].
    + by apply Hmark.
    + rewrite Hkeep by (by rewrite Z2Nat.id by lia).
      apply list_lookup_insert_eq. lia.
  - intros i [Hne Hout]%not_elem_of_cons.
    rewrite Hkeep by done. apply list_lookup_insert_ne. lia.
Qed.

End Walk.

Section WalkInode.

Implicit Types (bm : list bool) (st : fs_state) (inode : fs_inode).

(** The walk over a whole inode enters [v] at the blocks of the file (and
    at the indirect block, if asked to and the walk goes into it) and
    leaves every other entry of the bitmap alone. *)
Lemma walk_inode_spec v mark_ind inode bm st sz' bm' :
  walk_inode v mark_ind inode bm st = Ok (sz', bm') ->
  exists L,
    logical_blocks inode st = Ok L /\
    length bm' = length bm /\
    (forall p, p ∈ L ->
       0 <= p < Z.of_nat (length bm) /\ bm' !! Z.to_nat p = Some v) /\
    (mark_ind = true -> enters_indirect inode = true ->
       0 <= indirect inode < Z.of_nat (length bm) /\
       bm' !! Z.to_nat (indirect inode) = Some v) /\
    (forall i : nat,
       Z.of_nat i ∉ L ->
       (mark_ind = true -> enters_indirect inode = true ->
        Z.of_nat i <> indirect inode) ->
       bm' !! i = bm !! i).
Proof.
  unfold walk_inode, logical_blocks, enters_indirect.
  destruct (walk_pointers v (direct inode) (size inode) bm)
    as [[sz1 bm1] | f] eqn:Hw1; cbn [obind]; [| done].
  apply walk_pointers_spec in Hw1 as (-> & Hlen1 & Hmark1 & Hkeep1).
  set (d := pointers_in_slot_order (direct inode) (size inode)) in *.
  destruct ((0 <? snd d) && negb (indirect inode =? 0)) eqn:Hcond.
  2: { intros [= <- <-]. exists (fst d). split_and!; try done.
       intros i Hi _. by apply Hkeep1. }
  destruct (if mark_ind then zupdate bm1 (indirect inode) v else Ok bm1)
    as [bm2 | f] eqn:Hupd; cbn [obind]; [| done].
  destruct (disk_read (indirect inode) st) as [ib | f]; cbn [obind]; [| done].
  intros (_ & Hlen2 & Hmark2 & Hkeep2)%walk_pointers_spec.
  set (L2 := fst (pointers_in_slot_order (pointers_of ib) (snd d))) in *.
  (* the bitmap between the two loops *)
  assert (Hbm2 : length bm2 = length bm /\
                 (forall i : nat,
                    (mark_ind = true -> Z.of_nat i <> indirect inode) ->
                    bm2 !! i = bm1 !! i) /\
                 (mark_ind = true ->
                  0 <= indirect inode < Z.of_nat (length bm) /\
                  bm2 !! Z.to_nat (indirect inode) = Some v)).
  { destruct mark_ind.
    - apply zupdate_Ok in Hupd as [Hr ->]. rewrite length_insert.
      split_and!; [done | |].
      + intros i Hi. apply list_lookup_insert_ne.
        specialize (Hi eq_refl). lia.
      + intros _. split; [lia |]. apply list_lookup_insert_eq. lia.
    - injection Hupd as <-. split_and!; done. }
  destruct Hbm2 as (Hlen2' & Hkeep2' & Hind2).
  exists (fst d ++ L2). split_and!.
  - done.
  - lia.
  - intros p Hp. rewrite Hlen2' in Hmark2.
    destruct (decide (p ∈ L2)) as [Hin2 | Hout2]; [by apply Hmark2 |].
    apply elem_of_app in Hp as [Hin1 | ?]; [| done].
    destruct (Hmark1 p Hin1) as [Hr Hv]. split; [done |].
    rewrite Hkeep2 by (by rewrite Z2Nat.id by lia).
    destruct mark_ind.
    + destruct (Z.eq_dec p (indirect inode)) as [-> | Hne].
      * by apply Hind2.
      * rewrite Hkeep2' by (intros _; lia). done.
    + rewrite Hkeep2' by done. done.
  - intros Hmi _. destruct (Hind2 Hmi) as [Hr Hv]. split; [done |].
    rewrite Hlen2' in Hmark2.
    destruct (decide (indirect inode ∈ L2)) as [Hin2 | Hout2];
      [by apply Hmark2 |].
    rewrite Hkeep2 by (by rewrite Z2Nat.id by lia). done.
  - intros i [Hout1 Hout2]%not_elem_of_app Hind.
    rewrite Hkeep2 by done.
    rewrite Hkeep2' by (intros Hmi; by apply Hind).
    by apply Hkeep1.
Qed.

End WalkInode.

(** ** fs_delete *)

Section Delete.

Implicit Types (st : fs_state) (ino : fs_inode) (inumber j : Z).

Lemma fs_delete_Ok inumber st st' :
  fs_delete inumber st = Ok (1, st') ->
  is_mounted st = true /\
  is_valid_inumber inumber st = Ok true /\
  exists ino sz bm,
    inode_load inumber st = Ok ino /\
    walk_inode true true ino (free_block_bm st) st = Ok (sz, bm) /\
    inode_save inumber
      {| isvalid := 0; size := sz;
         direct := direct ino; indirect := indirect ino |}
      (set_bm bm st) = Ok st'.
Proof.
  unfold fs_delete.
  destruct (is_mounted st); cbn [negb]; [| done].
  destruct (is_valid_inumber inumber st) as [[] | f];
    cbn [obind negb]; [| done | done].
  destruct (inode_load inumber st) as [ino | f] eqn:Hload; cbn [obind];
    [| done].
  destruct (walk_inode true true ino (free_block_bm st) st)
    as [[sz bm] | f] eqn:Hwalk; cbn [obind]; [| done].
  destruct (inode_save _ _ _) as [st1 | f] eqn:Hsave; cbn [obind]; [| done].
  intros [= <-]. split_and!; try done. exists ino, sz, bm. split_and!; done.
Qed.

(** X4. After a successful [fs_delete] the inumber is invalid: [fs_getsize]
    returns -1, [fs_read] and [fs_write] return 0 and a second [fs_delete]
    returns 0, each without changing the state. *)
Theorem fs_delete_then_invalid inumber st st' :
  wf_disk (disk st) ->
  fs_delete inumber st = Ok (1, st') ->
  is_valid_inumber inumber st' = Ok false /\
  fs_getsize inumber st' = Ok (-1) /\
  (forall length offset, fs_read inumber length offset st' = Ok (0, [])) /\
  (forall junk_block junk_indirect data length offset,
     fs_write junk_block junk_indirect inumber data length offset st'
     = Ok (0, st')) /\
  fs_delete inumber st' = Ok (0, st').
Proof.
  intros Hwf (Hm & Hv & ino & sz & bm & Hload & _ & Hsave)%fs_delete_Ok.
  pose proof (is_valid_inumber_true _ _ Hv) as Hpos.
  assert (Hi : 0 <= inumber) by lia.
  assert (Hwf' : wf_disk (disk (set_bm bm st))) by done.
  destruct (inode_save_frame _ _ _ _ Hwf' Hi Hsave)
    as (_ & _ & Hm' & _ & _ & Hblocks & _).
  pose proof (inode_load_save _ _ _ _ Hwf' Hi Hsave) as Hload'.
  cbn [isvalid] in Hload'.
  assert (Hinv : is_valid_inumber inumber st' = Ok false).
  { apply is_valid_inumber_Ok in Hv as (sb & Hsb & Hcond).
    apply is_valid_inumber_Ok. exists sb. split.
    - rewrite Hblocks; [done | lia |].
      pose proof (inode_block_pos _ Hi). lia.
    - destruct (_ && _); [| done]. eexists. split; [exact Hload' |].
      reflexivity. }
  assert (Hmounted : is_mounted st' = true) by (by rewrite Hm').
  split_and!.
  - done.
  - unfold fs_getsize. by rewrite Hmounted, Hinv.
  - intros. unfold fs_read. by rewrite Hmounted, Hinv.
  - intros. unfold fs_write. by rewrite Hmounted, Hinv.
  - unfold fs_delete. by rewrite Hmounted, Hinv.
Qed.

(** X5. A successful [fs_delete] writes the table block of its inode and
    no other block: the volume stays mounted, every other block of the
    device (the superblock and the data blocks of the deleted file among
    them) and every other inode are as they were. *)
Theorem fs_delete_frame inumber st st' :
  wf_disk (disk st) ->
  fs_delete inumber st = Ok (1, st') ->
  is_mounted st' = true /\
  writes st' = writes st ++ [1 + Z.quot inumber INODES_PER_BLOCK] /\
  (forall m, 0 <= m -> m <> 1 + Z.quot inumber INODES_PER_BLOCK ->
     disk_read m st' = disk_read m st) /\
  (forall j, 0 <= j -> j <> inumber ->
     inode_load j st' = inode_load j st /\
     is_valid_inumber j st' = is_valid_inumber j st).
Proof.
  intros Hwf (Hm & Hv & ino & sz & bm & Hload & _ & Hsave)%fs_delete_Ok.
  pose proof (is_valid_inumber_true _ _ Hv) as Hpos.
  assert (Hi : 0 <= inumber) by lia.
  assert (Hwf' : wf_disk (disk (set_bm bm st))) by done.
  destruct (inode_save_frame _ _ _ _ Hwf' Hi Hsave)
    as (_ & _ & Hm' & _ & Hlog & Hblocks & Hinodes).
  split_and!; try done.
  - by rewrite Hm'.
  - intros j Hj Hne. split; [by apply Hinodes |].
    by destruct (inode_save_valid_other inumber _ _ st' j Hwf' Hi Hsave Hne).
Qed.

(** X6. A successful [fs_delete] marks free, in the free-block bitmap,
    every data block of the file (the non-zero direct pointers, then those
    of the indirect block, as far as the size reaches) and the indirect
    block if the walk went into it; every other entry of the bitmap is as
    it was. *)
Theorem fs_delete_frees_blocks inumber st st' :
  fs_delete inumber st = Ok (1, st') ->
  exists ino L,
    inode_load inumber st = Ok ino /\
    logical_blocks ino st = Ok L /\
    length (free_block_bm st') = length (free_block_bm st) /\
    (forall p, p ∈ L -> free_block_bm st' !! Z.to_nat p = Some true) /\
    (enters_indirect ino = true ->
     free_block_bm st' !! Z.to_nat (indirect ino) = Some true) /\
    (forall i : nat,
       Z.of_nat i ∉ L ->
       (enters_indirect ino = true -> Z.of_nat i <> indirect ino) ->
       free_block_bm st' !! i = free_block_bm st !! i).
Proof.
  intros (_ & _ & ino & sz & bm & Hload & Hwalk & Hsave)%fs_delete_Ok.
  apply walk_inode_spec in Hwalk as (L & HL & Hlen & Hmark & Hind & Hkeep).
  apply inode_save_bm in Hsave as [Hbm _]. cbn [set_bm free_block_bm] in Hbm.
  exists ino, L. rewrite Hbm. split_and!; try done.
  - intros p Hp. by apply Hmark.
  - intros He. by apply Hind.
  - intros i Hi Hne. apply Hkeep; [done |]. intros _. done.
Qed.

End Delete.

(** ** fs_mount *)

Section Mount.

Implicit Types (bm : list bool) (st : fs_state) (inode : fs_inode)
  (blk : block).

(** With [v = false] the walk makes busy the blocks of the file and
    nothing else. *)
Lemma walk_inode_busy inode bm st sz' bm' :
  walk_inode false true inode bm st = Ok (sz', bm') ->
  length bm' = length bm /\
  forall i : nat,
    bm' !! i = Some false <->
    bm !! i = Some false \/ referenced_by inode st (Z.of_nat i).
Proof.
  intros (L & HL & Hlen & Hmark & Hind & Hkeep)%walk_inode_spec.
  split; [done |]. intros i. unfold referenced_by.
  destruct (decide (Z.of_nat i ∈ L)) as [Hin | Hout].
  { split; [intros _; right; exists L; by auto |].
    intros _. destruct (Hmark _ Hin) as [_ Hv]. by rewrite Nat2Z.id in Hv. }
  destruct (enters_indirect inode) eqn:He.
  - destruct (Z.eq_dec (Z.of_nat i) (indirect inode)) as [Heq | Hne].
    + split; [intros _; right; exists L; by auto |].
      intros _. destruct (Hind eq_refl eq_refl) as [_ Hv].
      by rewrite <- Heq, Nat2Z.id in Hv.
    + rewrite Hkeep by done. split; [by left |].
      intros [? | (L' & HL' & [Hin | [_ ?]])]; [done | | done].
      rewrite HL in HL'. injection HL' as <-. done.
  - rewrite Hkeep by done. split; [by left |].
    intros [? | (L' & HL' & [Hin | [? _]])]; [done | | done].
    rewrite HL in HL'. injection HL' as <-. done.
Qed.

Lemma mount_inodes_busy slots blk st : forall bm bm',
  mount_inodes slots blk bm st = Ok bm' ->
  length bm' = length bm /\
  forall i : nat,
    bm' !! i = Some false <->
    bm !! i = Some false \/
    exists slot, slot ∈ slots /\ isvalid (inode_of blk slot) <> 0 /\
                 referenced_by (inode_of blk slot) st (Z.of_nat i).
Proof.
  induction slots as [| slot rest IH]; intros bm bm'; cbn [mount_inodes].
  { intros [= <-]. split; [done |]. intros i. split; [by left |].
    intros [? | (? & []%elem_of_nil & _)]. done. }
  destruct (Z.eqb_spec (isvalid (inode_of blk slot)) 0) as [Hinv | Hval].
  - intros [Hlen Hiff]%IH. split; [done |]. intros i. rewrite Hiff.
    split; (intros [? | (s & Hs & Hv & Hr)]; [by left | right]).
    + exists s. split_and!; [by apply elem_of_cons; right | done | done].
    + apply elem_of_cons in Hs as [-> | Hs]; [done |]. by exists s.
  - destruct (walk_inode false true (inode_of blk slot) bm st)
      as [[sz bm1] | f] eqn:Hwalk; cbn [obind]; [| done].
    apply walk_inode_busy in Hwalk as [Hlen1 Hiff1]. cbn [snd].
    intros [Hlen Hiff]%IH. split; [lia |]. intros i. rewrite Hiff, Hiff1.
    split.
    + intros [[? | Hr] | (s & Hs & Hv & Hr)]; [by left | right | right].
      * exists slot. split_and!; [by apply elem_of_cons; left | done | done].
      * exists s. split_and!; [by apply elem_of_cons; right | done | done].
    + intros [? | (s & Hs & Hv & Hr)]; [by left; left |].
      apply elem_of_cons in Hs as [-> | Hs]; [by left; right |].
      right. by exists s.
Qed.

Lemma mount_blocks_busy n st : forall k0 bm bm',
  0 <= k0 ->
  mount_blocks n k0 bm st = Ok bm' ->
  length bm' = length bm /\
  forall i : nat,
    bm' !! i = Some false <->
    bm !! i = Some false \/
    k0 + 1 <= Z.of_nat i <= k0 + Z.of_nat n \/
    exists k slot blk,
      k0 <= k < k0 + Z.of_nat n /\ (slot < 128)%nat /\
      disk_read (k + 1) st = Ok blk /\
      isvalid (inode_of blk slot) <> 0 /\
      referenced_by (inode_of blk slot) st (Z.of_nat i).
Proof.
  induction n as [| n IH]; intros k0 bm bm' Hk0; cbn [mount_blocks].
  { intros [= <-]. split; [done |]. intros i. split; [by left |].
    intros [? | [? | (k & ? & ? & ? & _)]]; [done | lia | lia]. }
  destruct (zupdate bm (k0 + 1) false) as [bm1 | f] eqn:Hupd; cbn [obind];
    [| done].
  apply zupdate_Ok in Hupd as [Hrange ->].
  destruct (disk_read (k0 + 1) st) as [blk | f] eqn:Hrd; cbn [obind]; [| done].
  destruct (mount_inodes _ blk _ st) as [bm2 | f] eqn:Hino; cbn [obind];
    [| done].
  apply mount_inodes_busy in Hino as [Hlen2 Hiff2].
  rewrite length_insert in Hlen2.
  intros [Hlen Hiff]%IH; [| lia]. split; [lia |].
  intros i. rewrite Hiff, Hiff2.
  assert (Hins : <[Z.to_nat (k0 + 1) := false]> bm !! i = Some false <->
                 bm !! i = Some false \/ Z.of_nat i = k0 + 1).
  { destruct (decide (i = Z.to_nat (k0 + 1))) as [-> | Hne].
    - rewrite list_lookup_insert_eq by lia. split; [right; lia | done].
    - rewrite list_lookup_insert_ne by done.
      split; [by left | intros [? | ?]; [done | lia]]. }
  rewrite Hins. split.
  - intros [[[? | ?] | (slot & Hs & Hv & Hr)] | [? | (k & slot & b & ? & ? & ? & ? & ?)]].
    + by left.
    + right; left; lia.
    + right; right. exists k0, slot, blk.
      apply elem_of_seq in Hs. split_and!; try done; try lia.
      unfold INODES_PER_BLOCK in Hs. lia.
    + right; left; lia.
    + right; right. exists k, slot, b. split_and!; try done; lia.
  - intros [? | [? | (k & slot & b & Hk & Hs & Hb & Hv & Hr)]].
    + by left; left; left.
    + destruct (Z.eq_dec (Z.of_nat i) (k0 + 1)); [by left; left; right |].
      right; left; lia.
    + destruct (Z.eq_dec k k0) as [-> | Hne].
      * left; right. rewrite Hrd in Hb. injection Hb as <-.
        exists slot. split_and!; try done.
        apply elem_of_seq. unfold INODES_PER_BLOCK. lia.
      * right; right. exists k, slot, b. split_and!; try done; lia.
Qed.

End Mount.

Lemma inumber_of_slot k slot :
  0 <= k -> (slot < 128)%nat ->
  Z.quot (k * INODES_PER_BLOCK + Z.of_nat slot) INODES_PER_BLOCK = k /\
  Z.to_nat (Z.rem (k * INODES_PER_BLOCK + Z.of_nat slot) INODES_PER_BLOCK)
  = slot.
Proof.
  unfold INODES_PER_BLOCK. intros Hk Hs.
  rewrite Z.quot_div_nonneg, Z.rem_mod_nonneg by lia. split.
  - rewrite Z.div_add_l, Z.div_small by lia. lia.
  - rewrite (Z.add_comm (k * 128)), Z_mod_plus_full, Z.mod_small by lia.
    lia.
Qed.

Lemma slot_of_inumber inumber n :
  0 <= inumber < n * INODES_PER_BLOCK ->
  0 <= Z.quot inumber INODES_PER_BLOCK < n.
Proof.
  unfold INODES_PER_BLOCK. intros Hi.
  rewrite Z.quot_div_nonneg by lia.
  split; [apply Z.div_pos; lia |]. apply Z.div_lt_upper_bound; lia.
Qed.

(** X7. [fs_mount] returns 0 and changes nothing when block 0 lacks the
    magic. Otherwise, when it returns, it returns 1, the volume is mounted,
    the disk is untouched, and the free-block bitmap has one entry per
    block counted by the superblock, busy at exactly these: block 0, the
    blocks [1 .. ninodeblocks] of the inode table, and the blocks that
    belong to a file whose record in the table is valid. *)
Theorem fs_mount_bitmap st r st' :
  fs_mount st = Ok (r, st') ->
  exists sb,
    disk_read 0 st = Ok sb /\
    (magic_ok (super_of sb) = false -> r = 0 /\ st' = st) /\
    (magic_ok (super_of sb) = true ->
     r = 1 /\ is_mounted st' = true /\
     disk st' = disk st /\ writes st' = writes st /\
     length (free_block_bm st') = Z.to_nat (nblocks (super_of sb)) /\
     forall i : nat,
       free_block_bm st' !! i = Some false <->
       (i < Z.to_nat (nblocks (super_of sb)))%nat /\
       (i = 0%nat \/
        1 <= Z.of_nat i <= ninodeblocks (super_of sb) \/
        exists inumber ino,
          0 <= inumber < ninodeblocks (super_of sb) * INODES_PER_BLOCK /\
          inode_load inumber st = Ok ino /\ isvalid ino <> 0 /\
          referenced_by ino st (Z.of_nat i))).
Proof.
  unfold fs_mount.
  destruct (disk_read 0 st) as [sb | f] eqn:Hsb; cbn [obind]; [| done].
  destruct (magic_ok (super_of sb)) eqn:Hmagic; cbn [negb].
  2: { intros [= <- <-]. exists sb.
       split_and!; [done | done | intros ?; congruence]. }
  set (nb := Z.to_nat (nblocks (super_of sb))).
  set (nib := ninodeblocks (super_of sb)).
  destruct (zupdate (replicate nb true) 0 false) as [bm1 | f] eqn:Hupd;
    cbn [obind]; [| done].
  apply zupdate_Ok in Hupd as [Hnb ->]. rewrite length_replicate in Hnb.
  destruct (mount_blocks (Z.to_nat nib) 0 _ st) as [bm2 | f] eqn:Hblocks;
    cbn [obind]; [| done].
  apply mount_blocks_busy in Hblocks as [Hlen Hiff]; [| lia].
  rewrite length_insert, length_replicate in Hlen.
  intros [= <- <-]. exists sb. split_and!; [done | intros ?; congruence |].
  intros _. cbn [set_mounted set_bm is_mounted disk writes free_block_bm].
  split_and!; try done.
  intros i. rewrite Hiff.
  assert (H0 : <[Z.to_nat 0 := false]> (replicate nb true) !! i = Some false
               <-> i = 0%nat).
  { destruct (decide (i = 0%nat)) as [-> | Hne].
    - change (Z.to_nat 0) with 0%nat.
      rewrite list_lookup_insert_eq by (rewrite length_replicate; lia). done.
    - rewrite list_lookup_insert_ne by (change (Z.to_nat 0) with 0%nat; done).
      split; [| done]. intros [? _]%lookup_replicate. done. }
  rewrite H0. split.
  - intros Hbusy.
    assert (Hi : (i < nb)%nat).
    { rewrite <- Hlen. apply lookup_lt_is_Some. exists false.
      apply Hiff. by rewrite H0. }
    split; [done |].
    destruct Hbusy as [? | [? | (k & slot & blk & Hk & Hs & Hb & Hv & Hr)]].
    + by left.
    + right; left. lia.
    + right; right.
      destruct (inumber_of_slot k slot) as [Hq Hrem]; [lia | done |].
      exists (k * INODES_PER_BLOCK + Z.of_nat slot), (inode_of blk slot).
      split_and!; [unfold INODES_PER_BLOCK; lia | unfold INODES_PER_BLOCK; nia
                  | | done | done].
      apply inode_load_Ok; [unfold INODES_PER_BLOCK; lia |].
      exists blk. rewrite Hq, Hrem, Z.add_comm. done.
  - intros [Hi [? | [? | (inumber & ino & Hrange & Hload & Hv & Hr)]]].
    + by left.
    + right; left. lia.
    + right; right.
      apply inode_load_Ok in Hload as (blk & Hb & ->); [| lia].
      pose proof (slot_of_inumber _ _ Hrange) as Hk.
      exists (Z.quot inumber INODES_PER_BLOCK),
        (Z.to_nat (Z.rem inumber INODES_PER_BLOCK)), blk.
      split_and!; try done; try lia.
      * apply slot_range. lia.
      * by rewrite Z.add_comm.
Qed.

(** ** fs_write: the count it returns and what it keeps *)

Section Write.

Implicit Types (st : fs_state) (blk : block) (inode : fs_inode).

Lemma int_chk_Ok z v : int_chk z = Ok v -> v = z.
Proof. unfold int_chk. destruct (in_int z); [by intros [= <-] | done]. Qed.

Lemma memcpy_in_wide buf off src soff n buf' :
  block_wide buf -> memcpy_in buf off src soff n = Ok buf' -> block_wide buf'.
Proof.
  unfold block_wide, memcpy_in, DISK_BLOCK_SIZE. intros Hbuf.
  destruct (Z.leb_spec 0 off), (Z.leb_spec 0 n), (Z.leb_spec (off + n) 4096);
    cbn [andb]; try done.
  destruct (Z.leb_spec 0 soff), (Z.leb_spec (soff + n) (Z.of_nat (length src)));
    cbn [andb]; try done.
  intros [= <-].
  rewrite !length_app, !length_take, !length_drop. lia.
Qed.

Lemma disk_write_frame n blk st st' :
  disk_write n blk st = Ok st' ->
  is_mounted st' = is_mounted st /\ free_block_bm st' = free_block_bm st.
Proof. intros [_ ->]%disk_write_Ok. done. Qed.

(** What the overwrite loop returns, and that it keeps the bitmap, the
    mounted flag and the shape of the device. *)
Lemma overwrite_loop_inv fuel :
  forall inode indirect_block data offset sz length offset_ptr write_counter
         blk st e st',
  0 < length ->
  overwrite_loop fuel inode indirect_block data offset sz length offset_ptr
    write_counter blk st = Ok (e, st') ->
  match e with
  | Returned w => write_counter <= w <= write_counter + length
  | Fell_through len' _ wc' _ =>
      0 < len' /\ wc' + len' = write_counter + length /\ write_counter <= wc'
  end /\
  is_mounted st' = is_mounted st /\
  free_block_bm st' = free_block_bm st /\
  (wf_disk (disk st) -> block_wide blk ->
   wf_disk (disk st') /\ disk_size st' = disk_size st /\
   match e with
   | Returned _ => True
   | Fell_through _ _ _ blk' => block_wide blk'
   end).
Proof.
  induction fuel as [| fuel IH]; intros * Hlen; cbn [overwrite_loop]; [done |].
  destruct (int_chk (sz - offset)) as [left | f]; cbn [obind]; [| done].
  destruct (left <=? 0).
  { intros [= <- <-]. split_and!; try done; lia. }
  destruct (if offset_ptr <? POINTERS_PER_INODE then _ else _)
    as [block_num | f]; cbn [obind]; [| done].
  destruct (int_chk _) as [reach | f] eqn:Hreach; cbn [obind]; [| done].
  apply int_chk_Ok in Hreach as ->.
  pose proof (block_offset_of_bound offset offset_ptr) as Hoff.
  destruct (Z.ltb_spec (block_offset_of offset offset_ptr + length)
              DISK_BLOCK_SIZE) as [Hfit | Hfull].
  - destruct (memcpy_in _ _ _ _ _) as [blk' | f] eqn:Hcopy; cbn [obind];
      [| done].
    destruct (disk_write _ _ _) as [st1 | f] eqn:Hw; cbn [obind]; [| done].
    intros [= <- <-].
    destruct (disk_write_frame _ _ _ _ Hw) as [Hm Hbm].
    split_and!; try done; try lia.
    intros Hwf Hblk. split_and!; [| by eapply disk_write_size | done].
    eapply disk_write_wf; [done | | done]. by eapply memcpy_in_wide.
  - destruct (memcpy_in _ _ _ _ _) as [blk' | f] eqn:Hcopy; cbn [obind];
      [| done].
    destruct (disk_write _ _ _) as [st1 | f] eqn:Hw; cbn [obind]; [| done].
    destruct (disk_write_frame _ _ _ _ Hw) as [Hm Hbm].
    assert (Hwf1 : wf_disk (disk st) -> block_wide blk ->
                   wf_disk (disk st1) /\ disk_size st1 = disk_size st /\
                   block_wide blk').
    { intros Hwf Hblk. pose proof (memcpy_in_wide _ _ _ _ _ _ Hblk Hcopy).
      split_and!; [| by eapply disk_write_size | done].
      by eapply disk_write_wf. }
    destruct (Z.leb_spec
                (length - (DISK_BLOCK_SIZE - block_offset_of offset offset_ptr))
                0) as [Hdone | Hmore].
    + intros [= <- <-]. split_and!; try done; try lia.
      intros Hwf Hblk. destruct (Hwf1 Hwf Hblk) as (? & ? & _). done.
    + intros Hrec. apply IH in Hrec as (Hcount & Hm' & Hbm' & Hdev); [| lia].
      split_and!; try congruence.
      * destruct e; lia.
      * intros Hwf Hblk. destruct (Hwf1 Hwf Hblk) as (Hw1 & Hs1 & Hb1).
        destruct (Hdev Hw1 Hb1) as (? & ? & ?). split_and!; [done | lia | done].
Qed.

End Write.

Section WriteExtend.

Implicit Types (st : fs_state) (blk : block) (inode : fs_inode).

(** The bitmap only loses free blocks. *)
Definition bitmap_shrinks (bm bm' : list bool) : Prop :=
  length bm' = length bm /\
  forall i : nat, bm !! i = Some false -> bm' !! i = Some false.

Lemma bitmap_shrinks_refl bm : bitmap_shrinks bm bm.
Proof. by split. Qed.

Lemma bitmap_shrinks_trans bm1 bm2 bm3 :
  bitmap_shrinks bm1 bm2 -> bitmap_shrinks bm2 bm3 -> bitmap_shrinks bm1 bm3.
Proof. intros [H1 H2] [H3 H4]. split; [congruence | auto]. Qed.

Lemma bitmap_shrinks_take bm b bm' :
  zupdate bm b false = Ok bm' -> bitmap_shrinks bm bm'.
Proof.
  intros [Hb ->]%zupdate_Ok. split; [by rewrite length_insert |].
  intros i Hi. destruct (decide (i = Z.to_nat b)) as [-> | Hne].
  - apply list_lookup_insert_eq. lia.
  - by rewrite list_lookup_insert_ne.
Qed.

(** The extension loop: the count it returns, the mounted flag and the
    bitmap. *)
Lemma extend_loop_inv n :
  forall b inumber data offset inode has_indirect free_direct free_indirect
         len offset_ptr write_counter blk st w st',
  extend_loop n b inumber data offset inode has_indirect free_direct
    free_indirect len offset_ptr write_counter blk st = Ok (w, st') ->
  write_counter <= w <= write_counter + Z.max 0 len /\
  is_mounted st' = is_mounted st /\
  bitmap_shrinks (free_block_bm st) (free_block_bm st').
Proof.
  induction n as [| n IH]; intros *; cbn [extend_loop].
  { intros [= <- <-]. split_and!; [lia | lia | done | apply bitmap_shrinks_refl]. }
  destruct (Z.leb_spec len 0) as [Hz | Hpos].
  { intros [= <- <-]. split_and!; [lia | lia | done | apply bitmap_shrinks_refl]. }
  destruct (zlookup (free_block_bm st) b) as [free | f]; cbn [obind]; [| done].
  destruct free; cbn [negb].
  2: { intros Hrec. apply IH in Hrec. done. }
  destruct (zupdate (free_block_bm st) b false) as [bm | f] eqn:Hupd;
    cbn [obind]; [| done].
  apply bitmap_shrinks_take in Hupd.
  destruct (_ && negb has_indirect).
  { destruct (inode_save _ _ _) as [st1 | f] eqn:Hs; cbn [obind]; [| done].
    apply inode_save_bm in Hs as [Hbm1 Hm1]. cbn in Hbm1, Hm1.
    intros (Hc & Hm & Hsh)%IH. rewrite Hbm1 in Hsh.
    split_and!; [lia | lia | congruence |].
    by eapply bitmap_shrinks_trans. }
  destruct (int_chk _) as [reach | f] eqn:Hreach; cbn [obind]; [| done].
  apply int_chk_Ok in Hreach as ->.
  pose proof (block_offset_of_bound offset offset_ptr) as Hoff.
  set (k := if _ <? DISK_BLOCK_SIZE then len
            else DISK_BLOCK_SIZE - block_offset_of offset offset_ptr).
  assert (Hk : 1 <= k <= len).
  { subst k. destruct (Z.ltb_spec (block_offset_of offset offset_ptr + len)
                         DISK_BLOCK_SIZE); lia. }
  destruct (memcpy_in _ _ _ _ _) as [blk' | f]; cbn [obind]; [| done].
  destruct (int_chk _) as [sz | f]; cbn [obind]; [| done].
  destruct (0 <? free_direct).
  { destruct (zupdate (direct _) _ _) as [ds | f]; cbn [obind]; [| done].
    destruct (inode_save _ _ _) as [st1 | f] eqn:Hs; cbn [obind]; [| done].
    apply inode_save_bm in Hs as [Hbm1 Hm1]. cbn in Hbm1, Hm1.
    destruct (disk_write _ _ _) as [st2 | f] eqn:Hw; cbn [obind]; [| done].
    apply disk_write_frame in Hw as [Hm2 Hbm2].
    intros (Hc & Hm & Hsh)%IH. rewrite Hbm2, Hbm1 in Hsh.
    split_and!; [lia | lia | congruence |].
    by eapply bitmap_shrinks_trans. }
  destruct (has_indirect && _).
  { destruct (disk_read _ _) as [ib | f]; cbn [obind]; [| done].
    destruct (set_pointer _ _ _) as [ib' | f]; cbn [obind]; [| done].
    destruct (disk_write _ _ _) as [st1 | f] eqn:Hw1; cbn [obind]; [| done].
    apply disk_write_frame in Hw1 as [Hm1 Hbm1]. cbn in Hbm1, Hm1.
    destruct (inode_save _ _ _) as [st2 | f] eqn:Hs; cbn [obind]; [| done].
    apply inode_save_bm in Hs as [Hbm2 Hm2].
    destruct (disk_write _ _ st2) as [st3 | f] eqn:Hw3; cbn [obind]; [| done].
    apply disk_write_frame in Hw3 as [Hm3 Hbm3].
    intros (Hc & Hm & Hsh)%IH. rewrite Hbm3, Hbm2, Hbm1 in Hsh.
    split_and!; [lia | lia | congruence |].
    by eapply bitmap_shrinks_trans. }
  destruct (inode_save _ _ _) as [st1 | f] eqn:Hs; cbn [obind]; [| done].
  apply inode_save_bm in Hs as [Hbm1 Hm1]. cbn in Hbm1, Hm1.
  destruct (disk_write _ _ _) as [st2 | f] eqn:Hw; cbn [obind]; [| done].
  apply disk_write_frame in Hw as [Hm2 Hbm2].
  intros (Hc & Hm & Hsh)%IH. rewrite Hbm2, Hbm1 in Hsh.
  split_and!; [lia | lia | congruence |].
  by eapply bitmap_shrinks_trans.
Qed.

End WriteExtend.

Section WriteDevice.

Implicit Types (st : fs_state) (blk : block) (inode : fs_inode).

Lemma set_pointer_wide ib idx b ib' :
  block_wide ib -> set_pointer ib idx b = Ok ib' -> block_wide ib'.
Proof.
  unfold set_pointer, block_wide, DISK_BLOCK_SIZE, POINTERS_PER_BLOCK.
  intros Hib.
  destruct (Z.leb_spec 0 idx), (Z.ltb_spec idx 1024); cbn [andb]; try done.
  intros [= <-]. rewrite length_set_int; lia.
Qed.

Lemma inode_save_device inumber ino st st' :
  wf_disk (disk st) -> 0 <= inumber ->
  inode_save inumber ino st = Ok st' ->
  wf_disk (disk st') /\ disk_size st' = disk_size st.
Proof.
  intros Hwf Hi Hs.
  by destruct (inode_save_frame _ _ _ _ Hwf Hi Hs) as (? & ? & _).
Qed.

Lemma disk_write_device n blk st st' :
  wf_disk (disk st) -> block_wide blk ->
  disk_write n blk st = Ok st' ->
  wf_disk (disk st') /\ disk_size st' = disk_size st.
Proof.
  intros Hwf Hblk Hw. split; [by eapply disk_write_wf | by eapply disk_write_size].
Qed.

(** The extension loop keeps the device in shape. *)
Lemma extend_loop_device n :
  forall b inumber data offset inode has_indirect free_direct free_indirect
         len offset_ptr write_counter blk st w st',
  0 <= inumber -> wf_disk (disk st) -> block_wide blk ->
  extend_loop n b inumber data offset inode has_indirect free_direct
    free_indirect len offset_ptr write_counter blk st = Ok (w, st') ->
  wf_disk (disk st') /\ disk_size st' = disk_size st.
Proof.
  induction n as [| n IH]; intros * Hi Hwf Hblk; cbn [extend_loop].
  { intros [= <- <-]. done. }
  destruct (len <=? 0).
  { intros [= <- <-]. done. }
  destruct (zlookup (free_block_bm st) b) as [free | f]; cbn [obind]; [| done].
  destruct free; cbn [negb]; [| by apply IH].
  destruct (zupdate (free_block_bm st) b false) as [bm | f]; cbn [obind];
    [| done].
  assert (Hwf0 : wf_disk (disk (set_bm bm st))) by done.
  assert (Hsz0 : disk_size (set_bm bm st) = disk_size st) by done.
  destruct (_ && negb has_indirect).
  { destruct (inode_save _ _ _) as [st1 | f] eqn:Hs; cbn [obind]; [| done].
    destruct (inode_save_device _ _ _ _ Hwf0 Hi Hs) as [Hwf1 Hsz1].
    intros [? ?]%IH; [| done | done | done]. split; [done | lia]. }
  destruct (int_chk _) as [reach | f]; cbn [obind]; [| done].
  destruct (memcpy_in _ _ _ _ _) as [blk' | f] eqn:Hcopy; cbn [obind];
    [| done].
  pose proof (memcpy_in_wide _ _ _ _ _ _ Hblk Hcopy) as Hblk'.
  destruct (int_chk _) as [sz | f]; cbn [obind]; [| done].
  destruct (0 <? free_direct).
  { destruct (zupdate (direct _) _ _) as [ds | f]; cbn [obind]; [| done].
    destruct (inode_save _ _ _) as [st1 | f] eqn:Hs; cbn [obind]; [| done].
    destruct (inode_save_device _ _ _ _ Hwf0 Hi Hs) as [Hwf1 Hsz1].
    destruct (disk_write _ _ _) as [st2 | f] eqn:Hw; cbn [obind]; [| done].
    destruct (disk_write_device _ _ _ _ Hwf1 Hblk' Hw) as [Hwf2 Hsz2].
    intros [? ?]%IH; [| done | done | done]. split; [done | lia]. }
  destruct (has_indirect && _).
  { destruct (disk_read _ _) as [ib | f] eqn:Hrd; cbn [obind]; [| done].
    pose proof (disk_read_wf _ _ _ Hwf0 Hrd) as Hib.
    destruct (set_pointer _ _ _) as [ib' | f] eqn:Hsp; cbn [obind]; [| done].
    pose proof (set_pointer_wide _ _ _ _ Hib Hsp) as Hib'.
    destruct (disk_write _ _ _) as [st1 | f] eqn:Hw1; cbn [obind]; [| done].
    destruct (disk_write_device _ _ _ _ Hwf0 Hib' Hw1) as [Hwf1 Hsz1].
    destruct (inode_save _ _ _) as [st2 | f] eqn:Hs; cbn [obind]; [| done].
    destruct (inode_save_device _ _ _ _ Hwf1 Hi Hs) as [Hwf2 Hsz2].
    destruct (disk_write _ _ st2) as [st3 | f] eqn:Hw3; cbn [obind]; [| done].
    destruct (disk_write_device _ _ _ _ Hwf2 Hblk' Hw3) as [Hwf3 Hsz3].
    intros [? ?]%IH; [| done | done | done]. split; [done | lia]. }
  destruct (inode_save _ _ _) as [st1 | f] eqn:Hs; cbn [obind]; [| done].
  destruct (inode_save_device _ _ _ _ Hwf0 Hi Hs) as [Hwf1 Hsz1].
  destruct (disk_write _ _ _) as [st2 | f] eqn:Hw; cbn [obind]; [| done].
  destruct (disk_write_device _ _ _ _ Hwf1 Hblk' Hw) as [Hwf2 Hsz2].
  intros [? ?]%IH; [| done | done | done]. split; [done | lia].
Qed.

(** X8. Whatever the arguments, when [fs_write] returns, the count is
    between 0 and the length asked for (0 when [length <= 0]). *)
Theorem fs_write_count
    junk_block junk_indirect inumber data len offset st r st' :
  fs_write junk_block junk_indirect inumber data len offset st = Ok (r, st') ->
  0 <= r <= Z.max 0 len.
Proof.
  unfold fs_write.
  destruct (negb (is_mounted st)); [intros [= <- <-]; lia |].
  destruct (is_valid_inumber inumber st) as [valid | f]; cbn [obind]; [| done].
  destruct (negb valid); [intros [= <- <-]; lia |].
  destruct (Z.leb_spec len 0) as [? | Hlen]; cbn [orb];
    [intros [= <- <-]; lia |].
  destruct (offset <? 0); [intros [= <- <-]; lia |].
  destruct (inode_load inumber st) as [inode | f]; cbn [obind]; [| done].
  destruct (if _ <? _ then _ else _) as [ib | f]; cbn [obind]; [| done].
  destruct (overwrite_loop _ _ _ _ _ _ _ _ _ _ _) as [[e st1] | f] eqn:Hover;
    cbn [obind]; [| done].
  apply overwrite_loop_inv in Hover as (Hcount & _); [| done].
  destruct e as [w | len' optr wc blk].
  - intros [= <- <-]. lia.
  - destruct (disk_read 0 st1) as [sb | f]; cbn [obind]; [| done].
    intros (Hc & _)%extend_loop_inv. lia.
Qed.

(** X9. [fs_write] never frees a block and never unmounts: when it
    returns, the volume is mounted if and only if it was, the free-block
    bitmap has the length it had and every block that was busy is busy. *)
Theorem fs_write_never_frees
    junk_block junk_indirect inumber data len offset st r st' :
  fs_write junk_block junk_indirect inumber data len offset st = Ok (r, st') ->
  is_mounted st' = is_mounted st /\
  length (free_block_bm st') = length (free_block_bm st) /\
  forall i : nat,
    free_block_bm st !! i = Some false -> free_block_bm st' !! i = Some false.
Proof.
  unfold fs_write.
  destruct (negb (is_mounted st)); [by intros [= <- <-] |].
  destruct (is_valid_inumber inumber st) as [valid | f]; cbn [obind]; [| done].
  destruct (negb valid); [by intros [= <- <-] |].
  destruct (Z.leb_spec len 0) as [? | Hlen]; cbn [orb];
    [by intros [= <- <-] |].
  destruct (offset <? 0); [by intros [= <- <-] |].
  destruct (inode_load inumber st) as [inode | f]; cbn [obind]; [| done].
  destruct (if _ <? _ then _ else _) as [ib | f]; cbn [obind]; [| done].
  destruct (overwrite_loop _ _ _ _ _ _ _ _ _ _ _) as [[e st1] | f] eqn:Hover;
    cbn [obind]; [| done].
  apply overwrite_loop_inv in Hover as (_ & Hm1 & Hbm1 & _); [| done].
  destruct e as [w | len' optr wc blk].
  - intros [= <- <-]. rewrite Hbm1. done.
  - destruct (disk_read 0 st1) as [sb | f]; cbn [obind]; [| done].
    intros (_ & Hm & Hlen' & Hmono)%extend_loop_inv.
    rewrite Hbm1 in Hlen', Hmono. split_and!; [congruence | done | done].
Qed.

(** X10. [fs_write] keeps the device in shape: entered on a device whose
    blocks are all one block wide, with a local buffer that wide, it
    leaves a device of as many blocks, all one block wide. *)
Theorem fs_write_keeps_device
    junk_block junk_indirect inumber data len offset st r st' :
  wf_disk (disk st) -> block_wide junk_block ->
  fs_write junk_block junk_indirect inumber data len offset st = Ok (r, st') ->
  wf_disk (disk st') /\ disk_size st' = disk_size st.
Proof.
  intros Hwf Hjunk. unfold fs_write.
  destruct (negb (is_mounted st)); [by intros [= <- <-] |].
  destruct (is_valid_inumber inumber st) as [valid | f] eqn:Hv; cbn [obind];
    [| done].
  destruct valid; cbn [negb]; [| by intros [= <- <-]].
  apply is_valid_inumber_true in Hv.
  destruct (Z.leb_spec len 0) as [? | Hlen]; cbn [orb];
    [by intros [= <- <-] |].
  destruct (offset <? 0); [by intros [= <- <-] |].
  destruct (inode_load inumber st) as [inode | f]; cbn [obind]; [| done].
  destruct (if _ <? _ then _ else _) as [ib | f]; cbn [obind]; [| done].
  destruct (overwrite_loop _ _ _ _ _ _ _ _ _ _ _) as [[e st1] | f] eqn:Hover;
    cbn [obind]; [| done].
  apply overwrite_loop_inv in Hover as (_ & _ & _ & Hdev); [| done].
  destruct (Hdev Hwf Hjunk) as (Hwf1 & Hsz1 & Hblk).
  destruct e as [w | len' optr wc blk].
  - intros [= <- <-]. done.
  - destruct (disk_read 0 st1) as [sb | f]; cbn [obind]; [| done].
    intros [? ?]%extend_loop_device; [| lia | done | done].
    split; [done | lia].
Qed.

End WriteDevice.

(** ** fs_read: the count it returns *)

Section Read.

Implicit Types (st : fs_state) (blk : block) (out : list byte).




End Read.

(** ** fs_format, then fs_mount *)

Section Reformat.

Implicit Types (st : fs_state) (bm : list bool).

Lemma le_combine_zeros m : le_combine (replicate m Byte.x00) = 0.
Proof.
  induction m as [| m IH]; [done |].
  change (replicate (S m) Byte.x00) with (Byte.x00 :: replicate m Byte.x00).
  change (le_combine (Byte.x00 :: replicate m Byte.x00))
    with (Z.lor (byte.unsigned Byte.x00)
            (Z.shiftl (le_combine (replicate m Byte.x00)) 8)).
  rewrite IH. reflexivity.
Qed.

Lemma get_int_zero_block k : get_int zero_block k = 0.
Proof.
  unfold get_int, zero_block.
  rewrite drop_replicate, take_replicate, le_combine_zeros. reflexivity.
Qed.

Lemma inode_of_zero_block slot :
  inode_of zero_block slot
  = {| isvalid := 0; size := 0; direct := [0; 0; 0; 0; 0]; indirect := 0 |}.
Proof.
  unfold inode_of. cbn [seq map]. by rewrite !get_int_zero_block.
Qed.

(** A zeroed block of the table holds no valid inode: the scan of mount
    passes over it. *)
Lemma mount_inodes_zero slots bm st :
  mount_inodes slots zero_block bm st = Ok bm.
Proof.
  induction slots as [| slot rest IH]; cbn [mount_inodes]; [done |].
  by rewrite inode_of_zero_block.
Qed.

Lemma mount_blocks_zero n st : forall k0 bm,
  0 <= k0 ->
  (forall j, k0 < j <= k0 + Z.of_nat n -> disk_read j st = Ok zero_block) ->
  k0 + Z.of_nat n < Z.of_nat (length bm) ->
  exists bm', mount_blocks n k0 bm st = Ok bm'.
Proof.
  induction n as [| n IH]; intros k0 bm Hk0 Hzero Hlen; cbn [mount_blocks].
  { by eexists. }
  destruct (zupdate bm (k0 + 1) false) as [bm1 | f] eqn:Hupd.
  2: { unfold zupdate in Hupd.
       destruct (Z.leb_spec 0 (k0 + 1)),
         (Z.ltb_spec (k0 + 1) (Z.of_nat (length bm))); cbn in Hupd;
         (done || lia). }
  cbn [obind]. rewrite Hzero by lia. cbn [obind].
  rewrite mount_inodes_zero. cbn [obind].
  apply zupdate_Ok in Hupd as [_ ->].
  apply IH; [lia | intros j Hj; apply Hzero; lia |].
  rewrite length_insert. lia.
Qed.

End Reformat.

Lemma int_chk_in_int z v : int_chk z = Ok v -> in_int z = true.
Proof. unfold int_chk. by destruct (in_int z). Qed.

(** What a successful [fs_format] over an old file system leaves: the new
    superblock and a zeroed inode table. *)
Lemma fs_format_erased junk st st1 old :
  wf_disk (disk st) -> block_wide junk ->
  disk_read 0 st = Ok old -> magic_ok (super_of old) = true ->
  ceil_div (disk_size st) 10 <= ninodeblocks (super_of old) ->
  fs_format junk st = Ok (1, st1) ->
  let n := disk_size st in
  let nib := ceil_div n 10 in
  1 <= nib < n /\
  disk_size st1 = n /\
  (exists new,
     disk_read 0 st1 = Ok new /\
     magic_ok (super_of new) = true /\
     nblocks (super_of new) = n /\
     ninodeblocks (super_of new) = nib /\
     ninodes (super_of new) = nib * INODES_PER_BLOCK) /\
  (forall j, 1 <= j <= nib -> disk_read j st1 = Ok zero_block).
Proof.
  intros Hwf Hjunk Hold Hmagic Hcover. unfold fs_format.
  destruct (is_mounted st); [done |].
  rewrite Hold. cbn [obind]. rewrite Hmagic.
  destruct (format_erase _ 0 st) as [sta | f] eqn:Herase; cbn [obind];
    [| done].
  apply format_erase_Ok in Herase as (_ & _ & _ & Hsz & Hwfa & Hrd); [| lia].
  rewrite Hsz.
  destruct (int_chk _) as [nin | f] eqn:Hnin; cbn [obind]; [| done].
  pose proof (int_chk_in_int _ _ Hnin) as Hin.
  apply int_chk_Ok in Hnin as ->.
  destruct (disk_write 0 _ sta) as [stb | f] eqn:Hw; cbn [obind]; [| done].
  intros [= <-]. cbv zeta.
  assert (Hn : 0 <= disk_size st <= INT_MAX)
    by (destruct Hwf; unfold disk_size; lia).
  pose proof (ceil_div_10_range _ Hn) as Hnib.
  pose proof (ceil_div_spec (disk_size st) 10 ltac:(lia)) as Hceil.
  assert (Hn1 : 1 <= disk_size st).
  { apply disk_read_Ok in Hold as [_ Hl]. apply lookup_lt_Some in Hl.
    unfold disk_size. lia. }
  assert (Hzero : forall j, 1 <= j <= ceil_div (disk_size st) 10 ->
                            disk_read j stb = Ok zero_block).
  { intros j Hj.
    rewrite (disk_read_write_ne 0 j _ _ _ ltac:(lia) ltac:(lia) Hw).
    rewrite Hrd by lia.
    destruct (Z.ltb_spec 0 j); [| lia].
    destruct (Z.leb_spec j (0 + Z.of_nat (Z.to_nat
                                  (ninodeblocks (super_of old)))));
      [done | lia]. }
  assert (Hfit : ceil_div (disk_size st) 10 < disk_size st).
  { specialize (Hzero (ceil_div (disk_size st) 10) ltac:(lia)).
    apply disk_read_Ok in Hzero as [_ Hl]. apply lookup_lt_Some in Hl.
    pose proof (disk_write_size _ _ _ _ Hw) as Hs. unfold disk_size in *.
    lia. }
  split_and!; [lia | lia | | | done].
  - rewrite (disk_write_size _ _ _ _ Hw). done.
  - eexists. split; [by eapply disk_read_write_eq |].
    rewrite super_of_put_super by done.
    cbn [magic nblocks ninodeblocks ninodes].
    unfold in_int in Hin.
    apply andb_prop in Hin as [Hlo%Z.leb_le Hhi%Z.leb_le].
    rewrite (signed32_wrap (disk_size st)) by (unfold INT_MIN in *; lia).
    rewrite (signed32_wrap (ceil_div (disk_size st) 10))
      by (unfold INT_MIN in *; lia).
    rewrite (signed32_wrap (ceil_div (disk_size st) 10 * INODES_PER_BLOCK))
      by (unfold INT_MIN in *; lia).
    split_and!; done.
Qed.

(** X12. Formatting a device that already carries a file system whose
    inode table is at least as long as the new one, and mounting it, gives
    an empty volume: the mount succeeds, the bitmap has one entry per
    block of the device, busy at block 0 and the inode table and free
    everywhere else, no inumber is valid, and the first [fs_create]
    returns inumber 1. *)
Theorem reformat_then_mount junk st st1 old :
  wf_disk (disk st) -> block_wide junk ->
  disk_read 0 st = Ok old -> magic_ok (super_of old) = true ->
  ceil_div (disk_size st) 10 <= ninodeblocks (super_of old) ->
  fs_format junk st = Ok (1, st1) ->
  exists st2,
    fs_mount st1 = Ok (1, st2) /\
    length (free_block_bm st2) = length (disk st) /\
    (forall i : nat,
       free_block_bm st2 !! i = Some false <->
       (i < length (disk st))%nat /\
       Z.of_nat i <= ceil_div (disk_size st) 10) /\
    (forall inumber, is_valid_inumber inumber st2 = Ok false) /\
    exists st3, fs_create st2 = Ok (1, st3).
Proof.
  intros Hwf Hjunk Hold Hmagic Hcover Hformat.
  destruct (fs_format_erased _ _ _ _ Hwf Hjunk Hold Hmagic Hcover Hformat)
    as (Hnib & Hsz1 & (new & Hnew & Hmagic' & Hnb & Hnibs & Hnin) & Hzero).
  set (n := disk_size st) in *. set (nib := ceil_div n 10) in *.
  (* the mount *)
  destruct (mount_blocks_zero (Z.to_nat nib) st1 0
              (<[Z.to_nat 0 := false]> (replicate (Z.to_nat n) true)))
    as [bm2 Hblocks]; [lia | intros j Hj; apply Hzero; lia | |].
  { rewrite length_insert, length_replicate. lia. }
  assert (Hmount : fs_mount st1
                   = Ok (1, set_mounted true (set_bm bm2 st1))).
  { unfold fs_mount. rewrite Hnew. cbn [obind]. rewrite Hmagic'. cbn [negb].
    rewrite Hnb, Hnibs. unfold zupdate. rewrite length_replicate.
    assert (Hc : (0 <=? 0) && (0 <? Z.of_nat (Z.to_nat n)) = true)
      by (apply andb_true_intro; split; [done | apply Z.ltb_lt; lia]).
    rewrite Hc. cbn [obind]. rewrite Hblocks. done. }
  apply mount_blocks_busy in Hblocks as [Hlen Hiff]; [| lia].
  rewrite length_insert, length_replicate in Hlen.
  exists (set_mounted true (set_bm bm2 st1)).
  cbn [set_mounted set_bm free_block_bm].
  (* no block of the table holds a valid inode *)
  assert (Hload : forall inumber,
            0 <= inumber < nib * INODES_PER_BLOCK ->
            inode_load inumber st1
            = Ok (inode_of zero_block
                    (Z.to_nat (Z.rem inumber INODES_PER_BLOCK)))).
  { intros inumber Hi. apply inode_load_Ok; [lia |].
    exists zero_block. split; [| done]. apply Hzero.
    pose proof (slot_of_inumber _ _ Hi). lia. }
  split_and!.
  - done.
  - unfold n, disk_size in Hlen. lia.
  - intros i. rewrite Hiff. split.
    + intros [Hb | [Hr | (k & slot & blk & Hk & _ & Hb & Hv & _)]].
      * destruct (decide (i = 0%nat)) as [-> | Hne].
        -- unfold n, disk_size in *. lia.
        -- rewrite list_lookup_insert_ne in Hb
             by (change (Z.to_nat 0) with 0%nat; done).
           by apply lookup_replicate in Hb as [? _].
      * unfold n, disk_size in *. lia.
      * rewrite Hzero in Hb by lia. injection Hb as <-.
        by rewrite inode_of_zero_block in Hv.
    + intros [Hi Hle]. destruct (decide (i = 0%nat)) as [-> | Hne].
      * left. change (Z.to_nat 0) with 0%nat.
        apply list_lookup_insert_eq. rewrite length_replicate.
        unfold n, disk_size in *. lia.
      * right; left. lia.
  - intros inumber. apply is_valid_inumber_Ok. exists new.
    split; [exact Hnew |]. rewrite Hnin.
    destruct (Z.ltb_spec 0 inumber); cbn [andb]; [| done].
    destruct (Z.ltb_spec inumber (nib * INODES_PER_BLOCK)); [| done].
    eexists. split; [apply (Hload inumber); lia |].
    by rewrite inode_of_zero_block.
  - unfold fs_create. cbn [is_mounted negb].
    change (disk_read 0 (set_mounted true (set_bm bm2 st1)))
      with (disk_read 0 st1).
    rewrite Hnew. cbn [obind]. rewrite Hnin.
    assert (Hscan : exists m, Z.to_nat (nib * INODES_PER_BLOCK - 1) = S m).
    { exists (Z.to_nat (nib * INODES_PER_BLOCK - 2)).
      unfold INODES_PER_BLOCK. lia. }
    destruct Hscan as [m ->]. cbn [create_scan].
    change (inode_load 1 (set_mounted true (set_bm bm2 st1)))
      with (inode_load 1 st1).
    rewrite (Hload 1) by (unfold INODES_PER_BLOCK; lia).
    cbn [obind]. rewrite inode_of_zero_block. cbn [isvalid direct indirect].
    change (0 =? 0) with true. cbv iota.
    unfold inode_save.
    change (disk_read (1 + Z.quot 1 INODES_PER_BLOCK)
              (set_mounted true (set_bm bm2 st1)))
      with (disk_read 1 st1).
    rewrite (Hzero 1) by lia. cbn [obind].
    change (0 <=? Z.rem 1 INODES_PER_BLOCK) with true. cbv iota.
    destruct (disk_write_succeeds (1 + Z.quot 1 INODES_PER_BLOCK)
                (put_inode zero_block (Z.to_nat (Z.rem 1 INODES_PER_BLOCK))
                   {| isvalid := 1; size := 0;
                      direct := clear_direct [0; 0; 0; 0; 0];
                      indirect := 0 |})
                (set_mounted true (set_bm bm2 st1))) as [st3 Hw].
    { change (1 + Z.quot 1 INODES_PER_BLOCK) with 1.
      change (disk_size (set_mounted true (set_bm bm2 st1)))
        with (disk_size st1). lia. }
    rewrite Hw. cbn [obind]. by exists st3.
Qed.

(** ** Inumbers outside the table *)

(** X13. On a mounted volume, an inumber that is not above 0 or not below
    the superblock's inode count is rejected by every operation that takes
    one: [fs_getsize] returns -1, [fs_delete], [fs_read] and [fs_write]
    return 0, and the state is as it was. Inumber 0 is among them. *)
Theorem inumber_out_of_range st sb inumber :
  is_mounted st = true -> disk_read 0 st = Ok sb ->
  inumber <= 0 \/ ninodes (super_of sb) <= inumber ->
  is_valid_inumber inumber st = Ok false /\
  fs_getsize inumber st = Ok (-1) /\
  fs_delete inumber st = Ok (0, st) /\
  (forall len offset, fs_read inumber len offset st = Ok (0, [])) /\
  (forall junk_block junk_indirect data len offset,
     fs_write junk_block junk_indirect inumber data len offset st
     = Ok (0, st)).
Proof.
  intros Hm Hsb Hrange.
  assert (Hv : is_valid_inumber inumber st = Ok false).
  { unfold is_valid_inumber. rewrite Hsb. cbn [obind].
    destruct (Z.ltb_spec 0 inumber),
      (Z.ltb_spec inumber (ninodes (super_of sb))); cbn [andb];
      (done || lia). }
  split_and!; [done | | | |].
  - unfold fs_getsize. by rewrite Hm, Hv.
  - unfold fs_delete. by rewrite Hm, Hv.
  - intros. unfold fs_read. by rewrite Hm, Hv.
  - intros. unfold fs_write. by rewrite Hm, Hv.
Qed.

(** ** fs_delete, then fs_create *)

Section Reuse.

Implicit Types (st : fs_state) (ino : fs_inode) (inumber i r : Z).

Lemma inode_save_succeeds inumber ino ino' st :
  0 <= inumber -> inode_load inumber st = Ok ino ->
  exists st', inode_save inumber ino' st = Ok st'.
Proof.
  intros Hi (blk & Hrd & _)%inode_load_Ok; [| done].
  pose proof Hrd as [_ Hl%lookup_lt_Some]%disk_read_Ok.
  pose proof (inode_block_pos _ Hi).
  destruct (disk_write_succeeds (1 + Z.quot inumber INODES_PER_BLOCK)
              (put_inode blk (Z.to_nat (Z.rem inumber INODES_PER_BLOCK)) ino')
              st) as [st' Hw]; [unfold disk_size; lia |].
  exists st'. apply inode_save_Ok; [done |]. by exists blk.
Qed.

(** The scan passes over valid slots and stops at the first invalid one. *)
Lemma create_scan_finds n : forall i st r,
  1 <= i -> i <= r < i + Z.of_nat n ->
  (forall j, i <= j < r ->
     exists ino, inode_load j st = Ok ino /\ isvalid ino <> 0) ->
  (exists ino, inode_load r st = Ok ino /\ isvalid ino = 0) ->
  exists st', create_scan n i st = Ok (r, st').
Proof.
  induction n as [| n IH]; intros i st r Hi Hr Hvalid Hfree; [lia |].
  cbn [create_scan].
  destruct (Z.eq_dec i r) as [-> | Hne].
  - destruct Hfree as (ino & Hload & Hinv). rewrite Hload. cbn [obind].
    rewrite Hinv. change (0 =? 0) with true. cbv iota.
    destruct (inode_save_succeeds r ino
                {| isvalid := 1; size := 0;
                   direct := clear_direct (direct ino);
                   indirect := indirect ino |} st) as [st' Hs]; [lia | done |].
    rewrite Hs. cbn [obind]. by exists st'.
  - destruct (Hvalid i ltac:(lia)) as (ino & Hload & Hv).
    rewrite Hload. cbn [obind].
    destruct (Z.eqb_spec (isvalid ino) 0); [done |].
    apply IH; [lia | lia | | done].
    intros j Hj. apply Hvalid. lia.
Qed.

(** X14. [fs_delete] then [fs_create] reuses the inumber: if every smaller
    inumber from 1 on is valid, the [fs_create] that follows a successful
    [fs_delete inumber] returns [inumber]; the file is then valid and
    empty ([fs_getsize] gives 0), and the blocks the delete freed are
    still free. *)
Theorem fs_delete_then_create inumber st st' :
  wf_disk (disk st) ->
  fs_delete inumber st = Ok (1, st') ->
  (forall j, 1 <= j < inumber -> is_valid_inumber j st = Ok true) ->
  exists st'',
    fs_create st' = Ok (inumber, st'') /\
    is_valid_inumber inumber st'' = Ok true /\
    fs_getsize inumber st'' = Ok 0 /\
    free_block_bm st'' = free_block_bm st'.
Proof.
  intros Hwf Hdel Hsmaller.
  pose proof Hdel as (Hm & Hv & ino & sz & bm & Hload & _ & Hsave)%fs_delete_Ok.
  pose proof (is_valid_inumber_true _ _ Hv) as Hpos.
  assert (Hi : 0 <= inumber) by lia.
  assert (Hwf0 : wf_disk (disk (set_bm bm st))) by done.
  destruct (inode_save_frame _ _ _ _ Hwf0 Hi Hsave)
    as (Hwf' & _ & Hm' & _ & _ & Hblocks & Hinodes).
  pose proof (inode_load_save _ _ _ _ Hwf0 Hi Hsave) as Hload'.
  cbn [isvalid size direct indirect] in Hload'.
  apply is_valid_inumber_Ok in Hv as (sb & Hsb & Hcond).
  destruct (Z.ltb_spec 0 inumber), (Z.ltb_spec inumber (ninodes (super_of sb)));
    cbn [andb] in Hcond; try done; try lia.
  assert (Hsb' : disk_read 0 st' = Ok sb).
  { rewrite Hblocks; [done | lia |]. pose proof (inode_block_pos _ Hi). lia. }
  (* the scan of create stops at the inumber *)
  destruct (create_scan_finds (Z.to_nat (ninodes (super_of sb) - 1)) 1 st'
              inumber) as [st'' Hscan]; [lia | lia | | |].
  { intros j Hj.
    destruct (inode_save_valid_other inumber _ _ st' j Hwf0 Hi Hsave
                ltac:(lia)) as [_ Hvj].
    assert (Hvj' : is_valid_inumber j st' = Ok true)
      by (rewrite Hvj; exact (Hsmaller j Hj)).
    apply is_valid_inumber_Ok in Hvj' as (sbj & _ & Hc).
    destruct (_ && _); [| done]. destruct Hc as (inoj & Hlj & Hvalid).
    exists inoj. split; [done |]. destruct (Z.eqb_spec (isvalid inoj) 0); done. }
  { eexists. split; [exact Hload' | reflexivity]. }
  exists st''.
  assert (Hcreate : fs_create st' = Ok (inumber, st'')).
  { unfold fs_create. rewrite Hm'. cbn [set_bm is_mounted]. rewrite Hm.
    cbn [negb]. rewrite Hsb'. done. }
  (* the record the scan has stored *)
  apply create_scan_save in Hscan as [[? _] | [_ (old & Hold & _ & Hs)]];
    [lia | | lia].
  destruct (inode_save_frame _ _ _ _ Hwf' Hi Hs)
    as (_ & _ & Hm'' & Hbm'' & _ & Hblocks'' & _).
  pose proof (inode_load_save _ _ _ _ Hwf' Hi Hs) as Hload''.
  cbn [isvalid size] in Hload''.
  assert (Hvalid : is_valid_inumber inumber st'' = Ok true).
  { apply is_valid_inumber_Ok. exists sb. split.
    - rewrite Hblocks''; [done | lia |]. pose proof (inode_block_pos _ Hi). lia.
    - destruct (Z.ltb_spec 0 inumber),
        (Z.ltb_spec inumber (ninodes (super_of sb))); cbn [andb]; try lia.
      eexists. split; [exact Hload'' | reflexivity]. }
  split_and!; [done | done | | done].
  unfold fs_getsize. rewrite Hm'', Hm'. cbn [set_bm is_mounted]. rewrite Hm.
  cbn [negb]. rewrite Hvalid. cbn [negb obind]. rewrite Hload''. reflexivity.
Qed.

End Reuse.

(** ** The properties above on the volumes of the examples *)

Lemma fs_create_spec_witness :
  wf_disk (disk vol_one_file) /\
  is_mounted vol_one_file = true /\
  fs_create vol_one_file = Ok (2, vol_two_files) /\
  (exists ino, inode_load 1 vol_one_file = Ok ino /\ isvalid ino <> 0) /\
  exists old,
    inode_load 2 vol_one_file = Ok old /\ isvalid old = 0 /\
    inode_load 2 vol_two_files
    = Ok {| isvalid := 1; size := 0;
            direct := [0; 0; 0; 0; 0]; indirect := indirect old |}.
Proof.
  assert (Hwf : wf_disk (disk vol_one_file))
    by (apply wf_diskb_true; vm_compute; reflexivity).
  assert (Hm : is_mounted vol_one_file = true) by (vm_compute; reflexivity).
  assert (Hc : fs_create vol_one_file = Ok (2, vol_two_files))
    by (vm_compute; reflexivity).
  destruct (disk_read 0 vol_one_file) as [sb | f] eqn:Hsb;
    [| exfalso; vm_compute in Hsb; discriminate Hsb].
  destruct (fs_create_spec vol_one_file 2 vol_two_files sb Hwf Hm Hsb Hc)
    as (Hbefore & _ & Hnew).
  split_and!; [exact Hwf | exact Hm | exact Hc | |].
  - apply (Hbefore 1). change (2 =? 0) with false. lia.
  - apply Hnew. lia.
Defined.

Lemma fs_create_frame_witness :
  wf_disk (disk vol_one_file) /\
  fs_create vol_one_file = Ok (2, vol_two_files) /\ 2 <> 0 /\
  is_valid_inumber 2 vol_two_files = Ok true /\
  fs_getsize 2 vol_two_files = Ok 0 /\
  inode_load 1 vol_two_files = inode_load 1 vol_one_file.
Proof.
  assert (Hwf : wf_disk (disk vol_one_file))
    by (apply wf_diskb_true; vm_compute; reflexivity).
  assert (Hc : fs_create vol_one_file = Ok (2, vol_two_files))
    by (vm_compute; reflexivity).
  destruct (fs_create_frame vol_one_file 2 vol_two_files Hwf Hc ltac:(lia))
    as (Hv & Hsize & _ & _ & _ & _ & Hothers).
  split_and!; [exact Hwf | exact Hc | lia | exact Hv | exact Hsize |].
  destruct (Hothers 1 ltac:(lia) ltac:(lia)) as [Hsame _]. exact Hsame.
Defined.

Lemma fs_delete_then_invalid_witness :
  wf_disk (disk vol_six_blocks) /\
  fs_delete 1 vol_six_blocks = Ok (1, after (fs_delete 1) vol_six_blocks) /\
  is_valid_inumber 1 (after (fs_delete 1) vol_six_blocks) = Ok false /\
  fs_getsize 1 (after (fs_delete 1) vol_six_blocks) = Ok (-1).
Proof.
  assert (Hwf : wf_disk (disk vol_six_blocks))
    by (apply wf_diskb_true; vm_compute; reflexivity).
  assert (Hd : fs_delete 1 vol_six_blocks
               = Ok (1, after (fs_delete 1) vol_six_blocks))
    by (vm_compute; reflexivity).
  destruct (fs_delete_then_invalid 1 vol_six_blocks _ Hwf Hd)
    as (Hv & Hsize & _).
  split_and!; [exact Hwf | exact Hd | exact Hv | exact Hsize].
Defined.

Lemma fs_delete_frame_witness :
  wf_disk (disk vol_full) /\
  fs_delete 2 vol_full = Ok (1, vol_room_again) /\
  writes vol_room_again = writes vol_full ++ [1] /\
  disk_read 2 vol_room_again = disk_read 2 vol_full /\
  inode_load 1 vol_room_again = inode_load 1 vol_full.
Proof.
  assert (Hwf : wf_disk (disk vol_full))
    by (apply wf_diskb_true; vm_compute; reflexivity).
  assert (Hd : fs_delete 2 vol_full = Ok (1, vol_room_again))
    by (vm_compute; reflexivity).
  destruct (fs_delete_frame 2 vol_full vol_room_again Hwf Hd)
    as (_ & Hlog & Hblocks & Hinodes).
  split_and!; [exact Hwf | exact Hd | exact Hlog | |].
  - exact (Hblocks 2 ltac:(lia) ltac:(vm_compute; discriminate)).
  - destruct (Hinodes 1 ltac:(lia) ltac:(lia)) as [Hsame _]. exact Hsame.
Defined.

Lemma fs_delete_frees_blocks_witness :
  fs_delete 1 vol_six_blocks = Ok (1, after (fs_delete 1) vol_six_blocks) /\
  exists ino L,
    inode_load 1 vol_six_blocks = Ok ino /\
    logical_blocks ino vol_six_blocks = Ok L /\
    forall p, p ∈ L ->
      free_block_bm (after (fs_delete 1) vol_six_blocks) !! Z.to_nat p
      = Some true.
Proof.
  assert (Hd : fs_delete 1 vol_six_blocks
               = Ok (1, after (fs_delete 1) vol_six_blocks))
    by (vm_compute; reflexivity).
  split; [exact Hd |].
  destruct (fs_delete_frees_blocks 1 vol_six_blocks _ Hd)
    as (ino & L & Hload & HL & _ & Hfree & _).
  exists ino, L. split_and!; [exact Hload | exact HL | exact Hfree].
Defined.

Lemma fs_mount_bitmap_witness :
  let st := after (fs_format zero_block) (blank_device 10) in
  fs_mount st = Ok (1, vol_mounted) /\
  exists sb,
    disk_read 0 st = Ok sb /\
    (magic_ok (super_of sb) = true ->
     forall i : nat,
       free_block_bm vol_mounted !! i = Some false <->
       (i < Z.to_nat (nblocks (super_of sb)))%nat /\
       (i = 0%nat \/
        1 <= Z.of_nat i <= ninodeblocks (super_of sb) \/
        exists inumber ino,
          0 <= inumber < ninodeblocks (super_of sb) * INODES_PER_BLOCK /\
          inode_load inumber st = Ok ino /\ isvalid ino <> 0 /\
          referenced_by ino st (Z.of_nat i))).
Proof.
  cbv zeta.
  assert (Hm : fs_mount (after (fs_format zero_block) (blank_device 10))
               = Ok (1, vol_mounted)) by (vm_compute; reflexivity).
  split; [exact Hm |].
  destruct (fs_mount_bitmap _ _ _ Hm) as (sb & Hsb & _ & Hok).
  exists sb. split; [exact Hsb |]. intros Hmagic.
  destruct (Hok Hmagic) as (_ & _ & _ & _ & _ & Hiff). exact Hiff.
Defined.

Lemma fs_write_count_witness :
  fs_write zero_block zero_block 1 (bytes chr_A 24576) 24576 0 vol_two_files
  = Ok (24576, after (write0 1 (bytes chr_A 24576) 24576 0) vol_two_files) /\
  fs_write zero_block zero_block 1 (bytes chr_A 24576) 24576 0
    (after (write0 2 (bytes chr_X 8192) 8192 0) vol_two_files)
  = Ok (20480, vol_full) /\
  0 <= 24576 <= Z.max 0 24576 /\ 0 <= 20480 <= Z.max 0 24576.
Proof.
  assert (H1 : fs_write zero_block zero_block 1 (bytes chr_A 24576) 24576 0
                 vol_two_files
               = Ok (24576, after (write0 1 (bytes chr_A 24576) 24576 0)
                              vol_two_files))
    by (vm_compute; reflexivity).
  assert (H2 : fs_write zero_block zero_block 1 (bytes chr_A 24576) 24576 0
                 (after (write0 2 (bytes chr_X 8192) 8192 0) vol_two_files)
               = Ok (20480, vol_full)) by (vm_compute; reflexivity).
  split; [exact H1 |]. split; [exact H2 |]. split.
  - exact (fs_write_count _ _ _ _ _ _ _ _ _ H1).
  - exact (fs_write_count _ _ _ _ _ _ _ _ _ H2).
Defined.

Lemma fs_write_never_frees_witness :
  fs_write zero_block zero_block 1 (bytes chr_C 4096) 4096 8192 vol_gap
  = Ok (4096, vol_out_of_order) /\
  is_mounted vol_out_of_order = is_mounted vol_gap /\
  length (free_block_bm vol_out_of_order) = length (free_block_bm vol_gap) /\
  forall i : nat,
    free_block_bm vol_gap !! i = Some false ->
    free_block_bm vol_out_of_order !! i = Some false.
Proof.
  assert (Hw : fs_write zero_block zero_block 1 (bytes chr_C 4096) 4096 8192
                 vol_gap
               = Ok (4096, vol_out_of_order)) by (vm_compute; reflexivity).
  split; [exact Hw |].
  exact (fs_write_never_frees _ _ _ _ _ _ _ _ _ Hw).
Defined.

Lemma fs_write_keeps_device_witness :
  wf_disk (disk vol_gap) /\ block_wide zero_block /\
  fs_write zero_block zero_block 1 (bytes chr_C 4096) 4096 8192 vol_gap
  = Ok (4096, vol_out_of_order) /\
  wf_disk (disk vol_out_of_order) /\
  disk_size vol_out_of_order = disk_size vol_gap.
Proof.
  assert (Hwf : wf_disk (disk vol_gap))
    by (apply wf_diskb_true; vm_compute; reflexivity).
  assert (Hw : fs_write zero_block zero_block 1 (bytes chr_C 4096) 4096 8192
                 vol_gap
               = Ok (4096, vol_out_of_order)) by (vm_compute; reflexivity).
  split; [exact Hwf |]. split; [exact zero_block_wide |]. split; [exact Hw |].
  exact (fs_write_keeps_device _ _ _ _ _ _ _ _ _ Hwf zero_block_wide Hw).
Defined.


Lemma reformat_then_mount_witness :
  let st := set_mounted false vol_six_blocks in
  wf_disk (disk st) /\ block_wide zero_block /\
  (exists old,
     disk_read 0 st = Ok old /\ magic_ok (super_of old) = true /\
     ceil_div (disk_size st) 10 <= ninodeblocks (super_of old)) /\
  fs_format zero_block st = Ok (1, after (fs_format zero_block) st) /\
  exists st2,
    fs_mount (after (fs_format zero_block) st) = Ok (1, st2) /\
    (forall inumber, is_valid_inumber inumber st2 = Ok false) /\
    exists st3, fs_create st2 = Ok (1, st3).
Proof.
  cbv zeta. set (st := set_mounted false vol_six_blocks).
  assert (Hwf : wf_disk (disk st))
    by (apply wf_diskb_true; vm_compute; reflexivity).
  destruct (disk_read 0 st) as [old | f] eqn:Hold;
    [| exfalso; vm_compute in Hold; discriminate Hold].
  assert (Hmagic : magic_ok (super_of old) = true).
  { assert (H : (b <- disk_read 0 st ;; Ok (magic_ok (super_of b))) = Ok true)
      by (vm_compute; reflexivity).
    rewrite Hold in H. cbn [obind] in H. by injection H. }
  assert (Hcover : ceil_div (disk_size st) 10 <= ninodeblocks (super_of old)).
  { assert (Hn : disk_size st = 10) by (vm_compute; reflexivity).
    assert (H : (b <- disk_read 0 st ;; Ok (ninodeblocks (super_of b)))
                = Ok 1) by (vm_compute; reflexivity).
    rewrite Hold in H. cbn [obind] in H. injection H as H.
    assert (Hb : ninodeblocks (super_of old) = 1) by exact H.
    rewrite Hn, Hb. vm_compute. discriminate. }
  assert (Hf : fs_format zero_block st
               = Ok (1, after (fs_format zero_block) st))
    by (vm_compute; reflexivity).
  split; [exact Hwf |]. split; [exact zero_block_wide |].
  split; [exists old; exact (conj eq_refl (conj Hmagic Hcover)) |].
  split; [exact Hf |].
  destruct (reformat_then_mount zero_block st _ old Hwf zero_block_wide
              Hold Hmagic Hcover Hf)
    as (st2 & Hmount & _ & _ & Hnone & Hcreate).
  exists st2. exact (conj Hmount (conj Hnone Hcreate)).
Defined.

Lemma inumber_out_of_range_witness :
  is_mounted vol_one_file = true /\
  (exists sb, disk_read 0 vol_one_file = Ok sb /\
              (0 <= 0 \/ ninodes (super_of sb) <= 0)) /\
  fs_getsize 0 vol_one_file = Ok (-1) /\
  fs_delete 0 vol_one_file = Ok (0, vol_one_file).
Proof.
  assert (Hm : is_mounted vol_one_file = true) by (vm_compute; reflexivity).
  destruct (disk_read 0 vol_one_file) as [sb | f] eqn:Hsb;
    [| exfalso; vm_compute in Hsb; discriminate Hsb].
  assert (Hr : 0 <= 0 \/ ninodes (super_of sb) <= 0) by (left; lia).
  destruct (inumber_out_of_range vol_one_file sb 0 Hm Hsb Hr)
    as (_ & Hsize & Hdel & _).
  split; [exact Hm |].
  split; [exists sb; exact (conj eq_refl Hr) |].
  exact (conj Hsize Hdel).
Defined.

Lemma fs_delete_then_create_witness :
  wf_disk (disk vol_full) /\
  fs_delete 2 vol_full = Ok (1, vol_room_again) /\
  (forall j, 1 <= j < 2 -> is_valid_inumber j vol_full = Ok true) /\
  exists st'',
    fs_create vol_room_again = Ok (2, st'') /\
    fs_getsize 2 st'' = Ok 0.
Proof.
  assert (Hwf : wf_disk (disk vol_full))
    by (apply wf_diskb_true; vm_compute; reflexivity).
  assert (Hd : fs_delete 2 vol_full = Ok (1, vol_room_again))
    by (vm_compute; reflexivity).
  assert (Hsmaller : forall j, 1 <= j < 2 ->
                               is_valid_inumber j vol_full = Ok true).
  { intros j Hj. assert (j = 1) as -> by lia. vm_compute. reflexivity. }
  split_and!; [exact Hwf | exact Hd | exact Hsmaller |].
  destruct (fs_delete_then_create 2 vol_full vol_room_again Hwf Hd Hsmaller)
    as (st'' & Hc & _ & Hsize & _).
  exists st''. split; [exact Hc | exact Hsize].
Defined.

(** ** Writing one block to an empty file, and reading it back *)

Section OneBlock.

Implicit Types (st : fs_state) (blk : block) (ino : fs_inode)
  (bm : list bool).

Lemma in_int_get_int blk k : in_int (get_int blk k) = true.
Proof.
  pose proof (get_int_range blk k) as [Hlo Hhi]. unfold in_int.
  apply andb_true_intro. split; by apply Z.leb_le.
Qed.

Lemma int_inode_of blk slot : int_inode (inode_of blk slot).
Proof.
  unfold int_inode, inode_of. cbn [isvalid size direct indirect seq map].
  cbn [forallb length]. rewrite !in_int_get_int. done.
Qed.

Lemma zlookup_Ok {A} (l : list A) i x :
  zlookup l i = Ok x <-> 0 <= i /\ l !! Z.to_nat i = Some x.
Proof.
  unfold zlookup. destruct (Z.leb_spec 0 i).
  - destruct (l !! Z.to_nat i); split; try done.
    + intros [= ->]. done.
    + intros [_ [= ->]]. done.
    + intros [_ [=]].
  - split; [done | lia].
Qed.

(** The extension loop passes over busy blocks. *)
Lemma extend_loop_skip m : forall n b0 inumber data offset ino has_indirect
    free_direct free_indirect len offset_ptr write_counter blk st,
  0 <= b0 -> 0 < len ->
  (forall j, b0 <= j < b0 + Z.of_nat m ->
     free_block_bm st !! Z.to_nat j = Some false) ->
  extend_loop (m + n) b0 inumber data offset ino has_indirect free_direct
    free_indirect len offset_ptr write_counter blk st
  = extend_loop n (b0 + Z.of_nat m) inumber data offset ino has_indirect
      free_direct free_indirect len offset_ptr write_counter blk st.
Proof.
  induction m as [| m IH]; intros * Hb0 Hlen Hbusy.
  { cbn [Nat.add]. by rewrite Z.add_0_r. }
  cbn [Nat.add extend_loop].
  destruct (Z.leb_spec len 0); [lia |].
  assert (Hl : zlookup (free_block_bm st) b0 = Ok false).
  { apply zlookup_Ok. split; [done |]. apply Hbusy. lia. }
  rewrite Hl. cbn [obind negb].
  rewrite IH; [| lia | done | intros j Hj; apply Hbusy; lia].
  f_equal. lia.
Qed.

(** The copy loop of [fs_read] passes over blocks that are not the file's. *)
Lemma read_loop_skip m : forall n b0 blocks offset len sz offset_ptr
    read_counter n_block out st,
  0 <= b0 -> 0 < len -> 0 < sz ->
  (forall j, b0 <= j < b0 + Z.of_nat m ->
     blocks !! Z.to_nat j = Some false) ->
  read_loop (m + n) b0 blocks offset len sz offset_ptr read_counter n_block
    out st
  = read_loop n (b0 + Z.of_nat m) blocks offset len sz offset_ptr
      read_counter n_block out st.
Proof.
  induction m as [| m IH]; intros * Hb0 Hlen Hsz Hout.
  { cbn [Nat.add]. by rewrite Z.add_0_r. }
  cbn [Nat.add read_loop].
  destruct (Z.leb_spec len 0); [lia |].
  destruct (Z.leb_spec sz 0); [lia |]. cbn [orb].
  assert (Hl : zlookup blocks b0 = Ok false).
  { apply zlookup_Ok. split; [done |]. apply Hout. lia. }
  rewrite Hl. cbn [obind negb].
  rewrite IH; [| lia | done | done | intros j Hj; apply Hout; lia].
  f_equal. lia.
Qed.

Lemma extend_loop_done n : forall b inumber data offset ino has_indirect
    free_direct free_indirect len offset_ptr write_counter blk st,
  len <= 0 ->
  extend_loop n b inumber data offset ino has_indirect free_direct
    free_indirect len offset_ptr write_counter blk st
  = Ok (write_counter, st).
Proof.
  intros * Hlen. destruct n; cbn [extend_loop]; [done |].
  destruct (Z.leb_spec len 0); [done | lia].
Qed.

Lemma fs_write_one_block
    junk_block junk_indirect inumber data len st sb ino b :
  is_mounted st = true ->
  disk_read 0 st = Ok sb ->
  is_valid_inumber inumber st = Ok true ->
  inode_load inumber st = Ok ino -> size ino = 0 ->
  0 <= ninodeblocks (super_of sb) <= b -> b < nblocks (super_of sb) ->
  (forall j, ninodeblocks (super_of sb) <= j < b ->
     free_block_bm st !! Z.to_nat j = Some false) ->
  free_block_bm st !! Z.to_nat b = Some true ->
  b < disk_size st -> b <= INT_MAX ->
  0 < len <= DISK_BLOCK_SIZE -> Z.of_nat (length data) = len ->
  exists st1 st2,
    inode_save inumber (one_block_inode ino b len)
      (set_bm (<[Z.to_nat b := false]> (free_block_bm st)) st) = Ok st1 /\
    disk_write b (one_block_data junk_block data) st1 = Ok st2 /\
    fs_write junk_block junk_indirect inumber data len 0 st = Ok (len, st2).
Proof.
  intros Hm Hsb Hv Hload Hsize Hnib Hnb Hbusy Hfree Hdev Hbint Hlen Hdata.
  pose proof (is_valid_inumber_true _ _ Hv) as Hpos.
  set (st0 := set_bm (<[Z.to_nat b := false]> (free_block_bm st)) st).
  destruct (inode_save_succeeds inumber ino (one_block_inode ino b len) st0)
    as [st1 Hs]; [lia | exact Hload |].
  destruct (disk_write_succeeds b (one_block_data junk_block data) st1)
    as [st2 Hw].
  { apply inode_save_Ok in Hs as (blk & _ & Hw0); [| lia].
    rewrite (disk_write_size _ _ _ _ Hw0). change (disk_size st0) with (disk_size st).
    lia. }
  exists st1, st2. split_and!; [done | done |].
  unfold fs_write. rewrite Hm, Hv. cbn [negb obind].
  destruct (Z.leb_spec len 0); [lia |]. cbn [orb].
  change (0 <? 0) with false. cbv iota.
  rewrite Hload. cbn [obind]. rewrite Hsize.
  change (ceil_div 0 DISK_BLOCK_SIZE) with 0.
  change (POINTERS_PER_INODE <? 0) with false. cbv iota. cbn [obind].
  change (Z.quot 0 DISK_BLOCK_SIZE) with 0.
  destruct (Z.to_nat len) as [| fuel] eqn:Hfuel; [lia |].
  cbn [overwrite_loop]. change (int_chk (0 - 0)) with (Ok 0).
  cbn [obind]. change (0 <=? 0) with true. cbv iota.
  cbn [obind]. cbv iota beta.
  change (0 <=? POINTERS_PER_INODE) with true. cbv iota.
  rewrite Hsb. cbn [obind].
  (* the scan reaches the first free block *)
  replace (Z.to_nat (nblocks (super_of sb) - ninodeblocks (super_of sb)))
    with (Z.to_nat (b - ninodeblocks (super_of sb))
          + S (Z.to_nat (nblocks (super_of sb) - b - 1)))%nat by lia.
  rewrite extend_loop_skip; [| lia | lia |].
  2: { intros j Hj. apply Hbusy. lia. }
  replace (ninodeblocks (super_of sb)
           + Z.of_nat (Z.to_nat (b - ninodeblocks (super_of sb)))) with b by lia.
  cbn [extend_loop].
  destruct (Z.leb_spec len 0); [lia |].
  assert (Hl : zlookup (free_block_bm st) b = Ok true)
    by (apply zlookup_Ok; split; [lia | done]).
  rewrite Hl. cbn [obind negb].
  assert (Hu : zupdate (free_block_bm st) b false
               = Ok (<[Z.to_nat b := false]> (free_block_bm st))).
  { apply zupdate_Ok. split; [| done]. apply lookup_lt_Some in Hfree. lia. }
  rewrite Hu. cbn [obind]. fold st0.
  change (POINTERS_PER_INODE - 0 =? 0) with false. cbn [andb].
  change (block_offset_of 0 0) with 0.
  assert (Hin : int_chk (0 + len) = Ok len).
  { unfold int_chk, in_int, INT_MIN, INT_MAX, DISK_BLOCK_SIZE in *.
    destruct (Z.leb_spec (- 2 ^ 31) (0 + len)), (Z.leb_spec (0 + len) (2 ^ 31 - 1));
      cbn [andb]; (done || lia). }
  rewrite Hin. cbn [obind].
  assert (Hk : (if len <? DISK_BLOCK_SIZE then len else DISK_BLOCK_SIZE - 0)
               = len).
  { destruct (Z.ltb_spec len DISK_BLOCK_SIZE); lia. }
  rewrite Hk.
  assert (Hcopy : memcpy_in junk_block 0 data 0 len
                  = Ok (one_block_data junk_block data)).
  { unfold memcpy_in.
    destruct (Z.leb_spec 0 0), (Z.leb_spec 0 len),
      (Z.leb_spec (0 + len) DISK_BLOCK_SIZE),
      (Z.leb_spec (0 + len) (Z.of_nat (length data))); cbn [andb]; try lia.
    unfold one_block_data. change (Z.to_nat 0) with 0%nat.
    rewrite take_0, drop_0. cbn [app].
    replace (Z.to_nat len) with (length data) by lia.
    replace (Z.to_nat (0 + len)) with (length data) by lia.
    by rewrite firstn_all. }
  rewrite Hcopy. cbn [obind]. cbn [set_size size]. rewrite Hsize, Hin.
  cbn [obind]. change (0 <? POINTERS_PER_INODE - 0) with true. cbv iota.
  change (Z.rem (POINTERS_PER_INODE - (POINTERS_PER_INODE - 0))
            POINTERS_PER_INODE) with 0.
  assert (Hd : zupdate (direct ino) 0 b = Ok (<[0%nat := b]> (direct ino))).
  { apply zupdate_Ok. split; [| done].
    apply inode_load_Ok in Hload as (blk & _ & ->); [| lia].
    cbn. lia. }
  unfold set_size, set_direct. cbn [isvalid size direct indirect].
  rewrite Hd. cbn [obind]. fold (one_block_inode ino b len).
  rewrite Hs. cbn [obind].
  rewrite Hw. cbn [obind].
  rewrite extend_loop_done by lia. f_equal; f_equal; lia.
Qed.

Lemma read_loop_done n : forall b blocks offset len sz offset_ptr
    read_counter n_block out st,
  len <= 0 ->
  read_loop n b blocks offset len sz offset_ptr read_counter n_block out st
  = Ok (read_counter, out).
Proof.
  intros * Hlen. destruct n; cbn [read_loop]; [done |].
  destruct (Z.leb_spec len 0); [done | lia].
Qed.

Lemma one_block_data_wide junk_block data :
  block_wide junk_block ->
  Z.of_nat (length data) <= DISK_BLOCK_SIZE ->
  block_wide (one_block_data junk_block data).
Proof.
  unfold block_wide, one_block_data. intros Hj Hd.
  rewrite length_app, length_drop. lia.
Qed.

Lemma int_inode_one_block blk slot b len :
  in_int b = true -> in_int len = true ->
  int_inode (one_block_inode (inode_of blk slot) b len).
Proof.
  intros Hb Hlen. unfold int_inode, one_block_inode, inode_of.
  cbn [isvalid size direct indirect seq map list_insert insert].
  cbn [forallb length]. rewrite !in_int_get_int, Hb, Hlen. done.
Qed.

(** Reading back, from offset 0, the one block of a file. *)
Lemma fs_read_one_block inumber len st sb ino b data blk :
  is_mounted st = true ->
  disk_read 0 st = Ok sb ->
  is_valid_inumber inumber st = Ok true ->
  inode_load inumber st = Ok ino ->
  size ino = len -> 0 < len <= DISK_BLOCK_SIZE ->
  (exists rest, direct ino = b :: rest) ->
  0 < b < nblocks (super_of sb) ->
  disk_read b st = Ok blk ->
  take (Z.to_nat len) blk = data ->
  block_wide blk ->
  fs_read inumber len 0 st = Ok (len, data).
Proof.
  intros Hm Hsb Hv Hload Hsize Hlen [rest Hd] Hb Hrd Hdata Hblk.
  unfold fs_read. rewrite Hm, Hv. cbn [negb obind].
  destruct (Z.leb_spec len 0); [lia |]. cbn [orb].
  change (0 <? 0) with false. cbv iota.
  rewrite Hload. cbn [obind]. rewrite Hsize.
  destruct (Z.leb_spec len 0); [lia |].
  rewrite Hsb. cbn [obind].
  set (nb := nblocks (super_of sb)) in *.
  (* the bitmap of the file's blocks *)
  assert (Hblocks : read_blocks nb ino st
                    = Ok (<[Z.to_nat b := true]>
                            (replicate (Z.to_nat nb) false))).
  { unfold read_blocks, walk_inode. rewrite Hd, Hsize.
    cbn [walk_pointers].
    destruct (Z.leb_spec len 0); [lia |].
    destruct (Z.eqb_spec b 0); [lia |].
    assert (Hu : zupdate (replicate (Z.to_nat nb) false) b true
                 = Ok (<[Z.to_nat b := true]>
                         (replicate (Z.to_nat nb) false))).
    { apply zupdate_Ok. rewrite length_replicate. split; [lia | done]. }
    rewrite Hu. cbn [obind].
    assert (Hrest : walk_pointers true rest (len - DISK_BLOCK_SIZE)
                      (<[Z.to_nat b := true]> (replicate (Z.to_nat nb) false))
                    = Ok (len - DISK_BLOCK_SIZE,
                          <[Z.to_nat b := true]>
                            (replicate (Z.to_nat nb) false))).
    { destruct rest; cbn [walk_pointers]; [done |].
      destruct (Z.leb_spec (len - DISK_BLOCK_SIZE) 0); [done | lia]. }
    rewrite Hrest. cbn [obind].
    destruct (Z.ltb_spec 0 (len - DISK_BLOCK_SIZE)); [lia |]. done. }
  rewrite Hblocks. cbn [obind].
  change (Z.quot 0 DISK_BLOCK_SIZE) with 0.
  (* the scan reaches the block *)
  assert (Hfree : forall j, 0 <= j < 0 + Z.of_nat (Z.to_nat b) ->
            <[Z.to_nat b := true]> (replicate (Z.to_nat nb) false)
              !! Z.to_nat j = Some false).
  { intros j Hj. rewrite list_lookup_insert_ne by lia.
    apply lookup_replicate. split; [done | lia]. }
  assert (Hl : zlookup (<[Z.to_nat b := true]>
                          (replicate (Z.to_nat nb) false)) b = Ok true).
  { apply zlookup_Ok. split; [lia |]. apply list_lookup_insert_eq.
    rewrite length_replicate. lia. }
  set (blocks := <[Z.to_nat b := true]> (replicate (Z.to_nat nb) false)) in *.
  replace (Z.to_nat nb)
    with (Z.to_nat b + S (Z.to_nat (nb - b - 1)))%nat by lia.
  rewrite read_loop_skip; [| lia | lia | lia | exact Hfree].
  replace (0 + Z.of_nat (Z.to_nat b)) with b by lia.
  cbn [read_loop].
  destruct (Z.leb_spec len 0); [lia |]. cbn [orb].
  rewrite Hl. cbn [obind negb]. change (0 =? 0) with true. cbv iota.
  change (block_offset_of 0 0) with 0.
  rewrite Hrd. cbn [obind].
  assert (Hin : int_chk (0 + len) = Ok len).
  { unfold int_chk, in_int, INT_MIN, INT_MAX, DISK_BLOCK_SIZE in *.
    destruct (Z.leb_spec (- 2 ^ 31) (0 + len)),
      (Z.leb_spec (0 + len) (2 ^ 31 - 1)); cbn [andb]; (done || lia). }
  assert (Hcopy : memcpy_out blk 0 len = Ok data).
  { unfold memcpy_out.
    destruct (Z.leb_spec 0 0), (Z.leb_spec 0 len),
      (Z.leb_spec (0 + len) DISK_BLOCK_SIZE); cbn [andb]; try lia.
    change (Z.to_nat 0) with 0%nat. by rewrite drop_0, Hdata. }
  destruct (Z.ltb_spec len DISK_BLOCK_SIZE) as [Hshort | Hfull].
  - rewrite Hcopy. cbn [obind]. rewrite Hin. done.
  - rewrite Hin. cbn [obind].
    destruct (Z.ltb_spec len DISK_BLOCK_SIZE); [lia |].
    assert (Hk : DISK_BLOCK_SIZE - 0 = len) by lia. rewrite Hk, Hcopy.
    cbn [obind]. rewrite read_loop_done by lia. f_equal; f_equal; lia.
Qed.


(** X16. On a mounted volume, writing at most one block of data at offset 0
    to a valid, empty file, when the first free block [b] of the scan lies
    past the inode's table block and on the device, returns the length
    written; afterwards [fs_getsize] gives that length and [fs_read] of the
    same length from offset 0 returns exactly the data written. *)
Theorem write_then_read_one_block junk_block junk_indirect inumber data len
    st sb ino b :
  wf_disk (disk st) -> block_wide junk_block ->
  is_mounted st = true ->
  disk_read 0 st = Ok sb ->
  is_valid_inumber inumber st = Ok true ->
  inode_load inumber st = Ok ino -> size ino = 0 ->
  0 <= ninodeblocks (super_of sb) <= b ->
  1 + Z.quot inumber INODES_PER_BLOCK < b ->
  b < nblocks (super_of sb) -> b < disk_size st ->
  (forall j, ninodeblocks (super_of sb) <= j < b ->
     free_block_bm st !! Z.to_nat j = Some false) ->
  free_block_bm st !! Z.to_nat b = Some true ->
  0 < len <= DISK_BLOCK_SIZE -> Z.of_nat (length data) = len ->
  exists st',
    fs_write junk_block junk_indirect inumber data len 0 st = Ok (len, st') /\
    fs_getsize inumber st' = Ok len /\
    fs_read inumber len 0 st' = Ok (len, data).
Proof.
  intros Hwf Hjunk Hm Hsb Hv Hload Hsize Hnib Hpast Hnb Hdev Hbusy Hfree
    Hlen Hdata.
  pose proof (is_valid_inumber_true _ _ Hv) as Hpos.
  assert (Hi : 0 <= inumber) by lia.
  pose proof (inode_block_pos inumber Hi) as Hiblk.
  assert (Hbmax : b <= INT_MAX).
  { pose proof (in_int_get_int sb 1) as Hin. unfold in_int in Hin.
    apply andb_prop in Hin as [_ Hin%Z.leb_le].
    unfold super_of in Hnb. cbn [nblocks] in Hnb. lia. }
  destruct (fs_write_one_block junk_block junk_indirect inumber data len st
              sb ino b Hm Hsb Hv Hload Hsize Hnib Hnb Hbusy Hfree Hdev Hbmax
              Hlen Hdata) as (st1 & st2 & Hsave & Hwr & Hwrite).
  exists st2. split; [exact Hwrite |].
  set (st0 := set_bm (<[Z.to_nat b := false]> (free_block_bm st)) st) in *.
  assert (Hwf0 : wf_disk (disk st0)) by exact Hwf.
  destruct (inode_save_frame _ _ _ _ Hwf0 Hi Hsave)
    as (Hwf1 & _ & Hm1 & _ & _ & Hrd1 & _).
  destruct (disk_write_frame _ _ _ _ Hwr) as [Hm2 _].
  (* the inode as it is stored after the write *)
  apply inode_load_Ok in Hload as (tbl & Htbl & Hino); [| exact Hi].
  assert (Hint : int_inode (one_block_inode ino b len)).
  { rewrite Hino. apply int_inode_one_block.
    - unfold in_int, INT_MIN. apply andb_true_intro.
      split; apply Z.leb_le; lia.
    - unfold in_int, INT_MIN, INT_MAX, DISK_BLOCK_SIZE in *.
      apply andb_true_intro. split; apply Z.leb_le; lia. }
  assert (Hload1 : inode_load inumber st1 = Ok (one_block_inode ino b len)).
  { rewrite (inode_load_save _ _ _ _ Hwf0 Hi Hsave).
    by rewrite (int_inode_stored _ Hint). }
  assert (Hload2 : inode_load inumber st2 = Ok (one_block_inode ino b len)).
  { rewrite <- Hload1. unfold inode_load.
    assert (Hne : b <> 1 + Z.quot inumber INODES_PER_BLOCK) by lia.
    assert (Hge : 0 <= 1 + Z.quot inumber INODES_PER_BLOCK) by lia.
    by rewrite (disk_read_write_ne _ _ _ _ _ Hne Hge Hwr). }
  assert (Hsb2 : disk_read 0 st2 = Ok sb).
  { assert (Hne : b <> 0) by lia.
    rewrite (disk_read_write_ne _ _ _ _ _ Hne (Z.le_refl 0) Hwr).
    rewrite Hrd1 by lia. exact Hsb. }
  assert (Hv2 : is_valid_inumber inumber st2 = Ok true).
  { apply is_valid_inumber_Ok in Hv as (sb' & Hsb' & Hcond).
    rewrite Hsb in Hsb'. injection Hsb' as <-.
    apply is_valid_inumber_Ok. exists sb. split; [exact Hsb2 |].
    destruct ((0 <? inumber) && (inumber <? ninodes (super_of sb)));
      [| discriminate].
    destruct Hcond as (ino' & Hload' & Hval).
    exists (one_block_inode ino b len). split; [exact Hload2 |].
    cbn [one_block_inode isvalid]. rewrite Hval. f_equal. f_equal.
    assert (Hl : inode_load inumber st = Ok ino).
    { apply inode_load_Ok; [exact Hi |]. by exists tbl. }
    rewrite Hl in Hload'. by injection Hload' as <-. }
  split.
  - unfold fs_getsize. rewrite Hm2, Hm1. change (is_mounted st0) with
      (is_mounted st). rewrite Hm. cbn [negb]. rewrite Hv2. cbn [obind negb].
    rewrite Hload2. done.
  - apply (fs_read_one_block inumber len st2 sb (one_block_inode ino b len) b
             data (one_block_data junk_block data)).
    + rewrite Hm2, Hm1. exact Hm.
    + exact Hsb2.
    + exact Hv2.
    + exact Hload2.
    + done.
    + exact Hlen.
    + rewrite Hino. unfold one_block_inode, inode_of.
      cbn [direct seq map list_insert insert]. eauto.
    + lia.
    + exact (disk_read_write_eq _ _ _ _ Hwr).
    + unfold one_block_data. rewrite <- Hdata, Nat2Z.id.
      by rewrite take_app_length.
    + apply one_block_data_wide; [exact Hjunk | lia].
Qed.

End OneBlock.

Lemma write_then_read_one_block_witness :
  is_valid_inumber 1 vol_one_file = Ok true /\
  fs_getsize 1 vol_one_file = Ok 0 /\
  exists st',
    fs_write zero_block zero_block 1 (bytes chr_A 4096) 4096 0 vol_one_file
    = Ok (4096, st') /\
    fs_getsize 1 st' = Ok 4096 /\
    fs_read 1 4096 0 st' = Ok (4096, bytes chr_A 4096).
Proof.
  assert (Hwf : wf_disk (disk vol_one_file))
    by (apply wf_diskb_true; vm_compute; reflexivity).
  assert (Hv : is_valid_inumber 1 vol_one_file = Ok true)
    by (vm_compute; reflexivity).
  assert (Hg : fs_getsize 1 vol_one_file = Ok 0)
    by (vm_compute; reflexivity).
  split; [exact Hv |]. split; [exact Hg |].
  destruct (disk_read 0 vol_one_file) as [sb |] eqn:Hsb;
    [| vm_compute in Hsb; discriminate].
  destruct (inode_load 1 vol_one_file) as [ino |] eqn:Hino;
    [| vm_compute in Hino; discriminate].
  assert (Hsbv : sb = put_super zero_block
                        {| magic := FS_MAGIC; nblocks := 10;
                           ninodeblocks := 1; ninodes := 128 |}).
  { vm_compute in Hsb. injection Hsb as <-. vm_compute. reflexivity. }
  assert (Hsize : size ino = 0).
  { vm_compute in Hino. injection Hino as <-. reflexivity. }
  assert (Hnib : ninodeblocks (super_of sb) = 1)
    by (rewrite Hsbv; vm_compute; reflexivity).
  assert (Hnb : nblocks (super_of sb) = 10)
    by (rewrite Hsbv; vm_compute; reflexivity).
  assert (Hdev : disk_size vol_one_file = 10) by (vm_compute; reflexivity).
  apply (write_then_read_one_block zero_block zero_block 1 (bytes chr_A 4096)
           4096 vol_one_file sb ino 2 Hwf).
  - apply zero_block_wide.
  - vm_compute. reflexivity.
  - exact Hsb.
  - exact Hv.
  - exact Hino.
  - exact Hsize.
  - rewrite Hnib. lia.
  - vm_compute. reflexivity.
  - rewrite Hnb. lia.
  - rewrite Hdev. lia.
  - rewrite Hnib. intros j Hj. assert (j = 1) as -> by lia.
    vm_compute. reflexivity.
  - vm_compute. reflexivity.
  - unfold DISK_BLOCK_SIZE. lia.
  - vm_compute. reflexivity.
Defined.
